(** * hello-world-2000: the greeting record and its two entry points

    A shallow embedding of [src/src/hello.cpp], [src/src/main.cpp] and
    [src/test/main.cpp], together with the part of the nlohmann::json
    library these three files call: the initializer-list constructor,
    the observers used by the test, and the compact serializer behind
    [operator<<].

    Strings are byte strings, as [std::string] and the arguments of
    [main] are.  Code that can throw returns a [result]; the serializer
    also records what it had handed to the stream when it threw; [main]
    runs on an explicit output stream with its buffer, in front of a
    device that takes the text, fails the write, or is a pipe nobody
    reads. *)

From Stdlib Require Import List String Ascii Bool Arith NArith ZArith Lia.
From Stdlib Require OrderedTypeEx.
Import ListNotations.
Local Open Scope list_scope.
Local Open Scope string_scope.

(** ** Exceptions and fallible results *)

(** The exception classes of nlohmann::json that the modelled calls can
    raise, with the numeric id the library attaches to each of them. *)
Inductive exception : Type :=
| type_error (id : nat)
| out_of_range (id : nat).

Inductive result (A : Type) : Type :=
| Ok (a : A)
| Throw (e : exception).
Arguments Ok {A} a.
Arguments Throw {A} e.

Definition bind {A B : Type} (r : result A) (k : A -> result B) : result B :=
  match r with
  | Ok a => k a
  | Throw e => Throw e
  end.

Notation "x <- r ;; k" := (bind r (fun x => k))
  (at level 61, r at next level, right associativity).

(** ** JSON values *)

(** [nlohmann::basic_json], restricted to the kinds of value this
    repository builds or inspects: null, booleans, strings, arrays and
    objects.  The library's three kinds of number, its binary values and
    its discarded values are left out: line 8 of hello.cpp builds none
    of them, and the test compares strings only.  Where [hello::greet]
    is a parameter below, it ranges over the values of these five kinds.
    An object is a [std::map] from strings to values: an association
    list kept in increasing key order by [map_emplace]. *)
#[local] Unset Elimination Schemes.
Inductive json : Type :=
| JNull
| JBool (b : bool)
| JString (s : string)
| JArray (items : list json)
| JObject (members : list (string * json)).
#[local] Set Elimination Schemes.

(** Induction on a value, with the property assumed of the elements of
    an array and of the members of an object. *)
Section JsonInduction.

Variable P : json -> Prop.
Hypothesis Hnull : P JNull.
Hypothesis Hbool : forall b, P (JBool b).
Hypothesis Hstring : forall s, P (JString s).
Hypothesis Harray : forall items, Forall P items -> P (JArray items).
Hypothesis Hobject :
  forall members, Forall (fun kv => P (snd kv)) members -> P (JObject members).

Fixpoint json_ind (j : json) : P j :=
  match j with
  | JNull => Hnull
  | JBool b => Hbool b
  | JString s => Hstring s
  | JArray items =>
      Harray items
        ((fix all (l : list json) : Forall P l :=
            match l with
            | [] => Forall_nil P
            | x :: l' => Forall_cons x (json_ind x) (all l')
            end) items)
  | JObject members =>
      Hobject members
        ((fix all (l : list (string * json))
            : Forall (fun kv => P (snd kv)) l :=
            match l with
            | [] => Forall_nil _
            | kv :: l' => Forall_cons kv (json_ind (snd kv)) (all l')
            end) members)
  end.

End JsonInduction.

Inductive value_t : Type :=
| vt_null | vt_object | vt_array | vt_string | vt_boolean.

Definition type (j : json) : value_t :=
  match j with
  | JNull => vt_null
  | JBool _ => vt_boolean
  | JString _ => vt_string
  | JArray _ => vt_array
  | JObject _ => vt_object
  end.

Definition is_array (j : json) : bool :=
  match j with JArray _ => true | _ => false end.

Definition is_string (j : json) : bool :=
  match j with JString _ => true | _ => false end.

Definition is_object (j : json) : bool :=
  match j with JObject _ => true | _ => false end.

(** [size()]: 0 for null, the number of elements of an array or an
    object, 1 for every other value. *)
Definition size (j : json) : nat :=
  match j with
  | JNull => 0
  | JArray items => List.length items
  | JObject members => List.length members
  | _ => 1
  end.

(** [std::map::emplace]: the pair is inserted at its place in key order
    (keys compare as byte strings) unless the key is already there. *)
Fixpoint map_emplace (k : string) (v : json) (m : list (string * json))
  : list (string * json) :=
  match m with
  | [] => [(k, v)]
  | (k', v') :: m' =>
      match String.compare k k' with
      | Lt => (k, v) :: m
      | Eq => m
      | Gt => (k', v') :: map_emplace k v m'
      end
  end.

Fixpoint map_find (k : string) (m : list (string * json)) : option json :=
  match m with
  | [] => None
  | (k', v) :: m' => if String.eqb k k' then Some v else map_find k m'
  end.

(** [contains(key)]: true only on an object that has the key. *)
Definition contains (j : json) (k : string) : bool :=
  match j with
  | JObject m => match map_find k m with Some _ => true | None => false end
  | _ => false
  end.

(** [at(key)]: type_error 304 on a value that is not an object,
    out_of_range 403 on a missing key. *)
Definition at_key (j : json) (k : string) : result json :=
  match j with
  | JObject m =>
      match map_find k m with
      | Some v => Ok v
      | None => Throw (out_of_range 403)
      end
  | _ => Throw (type_error 304)
  end.

(** [at(index)]: type_error 304 on a value that is not an array,
    out_of_range 401 past the end. *)
Definition at_index (j : json) (i : nat) : result json :=
  match j with
  | JArray items =>
      match nth_error items i with
      | Some v => Ok v
      | None => Throw (out_of_range 401)
      end
  | _ => Throw (type_error 304)
  end.

(** [operator==] on two values of the five kinds: equal kinds and equal
    contents. *)
Fixpoint json_eqb (a b : json) : bool :=
  match a, b with
  | JNull, JNull => true
  | JBool x, JBool y => Bool.eqb x y
  | JString x, JString y => String.eqb x y
  | JArray xs, JArray ys =>
      (fix items_eqb (xs ys : list json) : bool :=
         match xs, ys with
         | [], [] => true
         | x :: xs', y :: ys' => json_eqb x y && items_eqb xs' ys'
         | _, _ => false
         end) xs ys
  | JObject xs, JObject ys =>
      (fix members_eqb (xs ys : list (string * json)) : bool :=
         match xs, ys with
         | [], [] => true
         | (kx, x) :: xs', (ky, y) :: ys' =>
             String.eqb kx ky && json_eqb x y && members_eqb xs' ys'
         | _, _ => false
         end) xs ys
  | _, _ => false
  end.

(** A [std::vector] of strings (or of [char*]) converted to a value: an
    array with one string per element, in the vector's order. *)
Definition json_of_vector (v : list string) : json :=
  JArray (map JString v).

(** The element test of the initializer-list constructor: the element
    [is_array()], its [size()] is 2 and its item 0 [is_string()]. *)
Definition is_key_value_pair (e : json) : bool :=
  is_array e && (size e =? 2)%nat
  && match at_index e 0 with Ok first => is_string first | Throw _ => false end.

(** The loop that fills the object: one [emplace] per element, with the
    element's first item as key and its second as value.  It only runs on
    a list whose elements all passed [is_key_value_pair]. *)
Fixpoint emplace_pairs (init : list json) (m : list (string * json))
  : list (string * json) :=
  match init with
  | JArray [JString k; v] :: rest => emplace_pairs rest (map_emplace k v m)
  | _ :: rest => emplace_pairs rest m
  | [] => m
  end.

(** [basic_json(initializer_list_t init, bool type_deduction = true,
    value_t manual_type = value_t::array)]. *)
Definition basic_json_init (init : list json) (type_deduction : bool)
  (manual_type : value_t) : result json :=
  let is_an_object := forallb is_key_value_pair init in
  let is_an_object :=
    if type_deduction then is_an_object
    else match manual_type with vt_array => false | _ => is_an_object end in
  if negb type_deduction
     && match manual_type with vt_object => true | _ => false end
     && negb is_an_object
  then Throw (type_error 301)
  else if is_an_object then Ok (JObject (emplace_pairs init []))
  else Ok (JArray init).

(** A braced list with the constructor's default arguments. *)
Definition braced (init : list json) : result json :=
  basic_json_init init true vt_array.

(** ** The serializer *)

(** *** UTF-8 decoding

    [serializer::decode] checks the bytes of a string with a table-driven
    automaton: the first 256 entries of [utf8d] give the class of a byte,
    the rest give the next state from the current state and that class. *)
Definition UTF8_ACCEPT : nat := 0.
Definition UTF8_REJECT : nat := 1.

Definition utf8d : list nat :=
  [ 0; 0; 0; 0; 0; 0; 0; 0; 0; 0; 0; 0; 0; 0; 0; 0; 0; 0; 0; 0; 0; 0; 0; 0; 0; 0; 0; 0; 0; 0; 0; 0;
    0; 0; 0; 0; 0; 0; 0; 0; 0; 0; 0; 0; 0; 0; 0; 0; 0; 0; 0; 0; 0; 0; 0; 0; 0; 0; 0; 0; 0; 0; 0; 0;
    0; 0; 0; 0; 0; 0; 0; 0; 0; 0; 0; 0; 0; 0; 0; 0; 0; 0; 0; 0; 0; 0; 0; 0; 0; 0; 0; 0; 0; 0; 0; 0;
    0; 0; 0; 0; 0; 0; 0; 0; 0; 0; 0; 0; 0; 0; 0; 0; 0; 0; 0; 0; 0; 0; 0; 0; 0; 0; 0; 0; 0; 0; 0; 0;
    1; 1; 1; 1; 1; 1; 1; 1; 1; 1; 1; 1; 1; 1; 1; 1; 9; 9; 9; 9; 9; 9; 9; 9; 9; 9; 9; 9; 9; 9; 9; 9;
    7; 7; 7; 7; 7; 7; 7; 7; 7; 7; 7; 7; 7; 7; 7; 7; 7; 7; 7; 7; 7; 7; 7; 7; 7; 7; 7; 7; 7; 7; 7; 7;
    8; 8; 2; 2; 2; 2; 2; 2; 2; 2; 2; 2; 2; 2; 2; 2; 2; 2; 2; 2; 2; 2; 2; 2; 2; 2; 2; 2; 2; 2; 2; 2;
    10; 3; 3; 3; 3; 3; 3; 3; 3; 3; 3; 3; 3; 4; 3; 3;
    11; 6; 6; 6; 5; 8; 8; 8; 8; 8; 8; 8; 8; 8; 8; 8;
    0; 1; 2; 3; 5; 8; 7; 1; 1; 1; 4; 6; 1; 1; 1; 1;
    1; 1; 1; 1; 1; 1; 1; 1; 1; 1; 1; 1; 1; 1; 1; 1; 1; 0; 1; 1; 1; 1; 1; 0; 1; 0; 1; 1; 1; 1; 1; 1;
    1; 2; 1; 1; 1; 1; 1; 2; 1; 2; 1; 1; 1; 1; 1; 1; 1; 1; 1; 1; 1; 1; 1; 2; 1; 1; 1; 1; 1; 1; 1; 1;
    1; 2; 1; 1; 1; 1; 1; 1; 1; 2; 1; 1; 1; 1; 1; 1; 1; 1; 1; 1; 1; 1; 1; 3; 1; 3; 1; 1; 1; 1; 1; 1;
    1; 3; 1; 1; 1; 1; 1; 3; 1; 3; 1; 1; 1; 1; 1; 1; 1; 3; 1; 1; 1; 1; 1; 1; 1; 1; 1; 1; 1; 1; 1; 1 ]%nat.

(** [decode(state, codep, byte)]: the new state and the code point read
    so far.  [codep] is a 32-bit unsigned integer. *)
Definition decode (state : nat) (codep : N) (byte : ascii) : nat * N :=
  let type := nth (nat_of_ascii byte) utf8d 0%nat in
  let codep' :=
    if (state =? UTF8_ACCEPT)%nat
    then N.land (N.shiftr 255 (N.of_nat type)) (N_of_ascii byte)
    else N.lor (N.land (N_of_ascii byte) 63) (N.shiftl codep 6 mod 2 ^ 32) in
  let index := (256 + state * 16 + type)%nat in
  (nth index utf8d 0%nat, codep')%N.

(** *** The output adapter

    The serializer hands characters to an output adapter and may throw
    half way: a computation is the text handed over so far and the way
    it ended. *)
Definition writer (A : Type) : Type := (string * result A)%type.

Definition wret {A : Type} (a : A) : writer A := ("", Ok a).

Definition wthrow {A : Type} (e : exception) : writer A := ("", Throw e).

Definition write_characters (s : string) : writer unit := (s, Ok tt).

Definition write_character (c : ascii) : writer unit := (String c "", Ok tt).

Definition wseq {A : Type} (w : writer unit) (k : writer A) : writer A :=
  match w with
  | (out, Ok _) => (out ++ fst k, snd k)
  | (out, Throw e) => (out, Throw e)
  end.

Notation "w >> k" := (wseq w k) (at level 62, right associativity).

Definition quote : ascii := "034"%char.
Definition backslash : ascii := "092"%char.

Definition hex_digit (n : N) : ascii :=
  match n with
  | 0 => "0" | 1 => "1" | 2 => "2" | 3 => "3" | 4 => "4" | 5 => "5"
  | 6 => "6" | 7 => "7" | 8 => "8" | 9 => "9" | 10 => "a" | 11 => "b"
  | 12 => "c" | 13 => "d" | 14 => "e" | _ => "f"
  end%N%char.

(** [snprintf] with the format [\u%04x] on a 16-bit value: backslash,
    [u] and four lower-case hexadecimal digits. *)
Definition u_escape (n : N) : string :=
  String backslash (String "u"
    (String (hex_digit (n / 4096 mod 16)) (String (hex_digit (n / 256 mod 16))
    (String (hex_digit (n / 16 mod 16)) (String (hex_digit (n mod 16)) ""))))).

(** What [dump_escaped] puts in its buffer for a code point that has
    just been completed by [byte]. *)
Definition escaped (codepoint : N) (byte : ascii) (ensure_ascii : bool)
  : string :=
  match codepoint with
  | 8 => String backslash "b"
  | 9 => String backslash "t"
  | 10 => String backslash "n"
  | 12 => String backslash "f"
  | 13 => String backslash "r"
  | 34 => String backslash (String quote "")
  | 92 => String backslash (String backslash "")
  | _ =>
      if (codepoint <=? 31) || (ensure_ascii && (127 <=? codepoint))
      then
        if codepoint <=? 65535 then u_escape codepoint
        else u_escape (55232 + N.shiftr codepoint 10)
             ++ u_escape (56320 + N.land codepoint 1023)
      else String byte ""
  end%N.

(** [string_buffer], the array of 512 bytes in which [dump_escaped]
    collects the escaped bytes of a string. *)
Definition string_buffer_size : nat := 512.

(** The loop of [dump_escaped] from a given decoder state, with the
    strict error handler: type_error 316 on a byte that is not UTF-8 and
    on a string that ends inside a code point.  The escaped bytes go to
    [buffer]; after a code point the buffer is handed to the output
    adapter when fewer than 13 of its bytes are free, and at the end of
    the string when it is not empty.  An exception leaves what the
    buffer holds unwritten. *)
Fixpoint dump_escaped_from (state : nat) (codepoint : N) (buffer : string)
  (s : string) (ensure_ascii : bool) : writer unit :=
  match s with
  | EmptyString =>
      if (state =? UTF8_ACCEPT)%nat then
        if (0 <? String.length buffer)%nat then write_characters buffer
        else wret tt
      else wthrow (type_error 316)
  | String byte rest =>
      let (state', codepoint') := decode state codepoint byte in
      if (state' =? UTF8_ACCEPT)%nat then
        let buffer' := buffer ++ escaped codepoint' byte ensure_ascii in
        if (string_buffer_size - String.length buffer' <? 13)%nat then
          write_characters buffer'
          >> dump_escaped_from state' codepoint' "" rest ensure_ascii
        else dump_escaped_from state' codepoint' buffer' rest ensure_ascii
      else if (state' =? UTF8_REJECT)%nat then wthrow (type_error 316)
      else
        dump_escaped_from state' codepoint'
          (if ensure_ascii then buffer else buffer ++ String byte "")
          rest ensure_ascii
  end.

Definition dump_escaped (s : string) (ensure_ascii : bool) : writer unit :=
  dump_escaped_from UTF8_ACCEPT 0 "" s ensure_ascii.

(** The loop of [serializer::dump] over the elements of an array that
    is not empty: a comma after each element but the last, the closing
    bracket after the last. *)
Fixpoint dump_items (dump_value : json -> writer unit) (vs : list json)
  : writer unit :=
  match vs with
  | [] => wret tt
  | [v] => dump_value v >> write_character "]"
  | v :: vs' => dump_value v >> write_character "," >> dump_items dump_value vs'
  end.

(** The same loop over the members of an object, in key order. *)
Fixpoint dump_members (dump_value : json -> writer unit)
  (dump_key : string -> writer unit) (ms : list (string * json))
  : writer unit :=
  match ms with
  | [] => wret tt
  | [(k, v)] =>
      write_character quote >> dump_key k
      >> write_characters (String quote ":")
      >> dump_value v >> write_character "}"
  | (k, v) :: ms' =>
      write_character quote >> dump_key k
      >> write_characters (String quote ":")
      >> dump_value v >> write_character ","
      >> dump_members dump_value dump_key ms'
  end.

(** [serializer::dump] without pretty printing. *)
Fixpoint dump (val : json) (ensure_ascii : bool) : writer unit :=
  match val with
  | JObject [] => write_characters "{}"
  | JObject members =>
      write_character "{"
      >> dump_members (fun v => dump v ensure_ascii)
           (fun k => dump_escaped k ensure_ascii) members
  | JArray [] => write_characters "[]"
  | JArray items =>
      write_character "[" >> dump_items (fun v => dump v ensure_ascii) items
  | JString s =>
      write_character quote >> dump_escaped s ensure_ascii
      >> write_character quote
  | JBool true => write_characters "true"
  | JBool false => write_characters "false"
  | JNull => write_characters "null"
  end.

(** ** Standard output and the process *)

(** What stands behind standard output: a file that takes what is
    written to it; one that fails every write with an error (a full
    disk, a closed descriptor, a pipe whose reader is gone when SIGPIPE
    is ignored); or a pipe whose reader is gone, where a write raises
    the signal SIGPIPE, which ends the process. *)
Inductive device : Type := accepting | refusing | broken_pipe.

(** [std::cout] and the buffer of the C library under it: the device,
    the size of the buffer in bytes, the text the device has taken,
    the bytes still in the buffer, the stream's state, and whether the
    process has received SIGPIPE.  No exception mask is set, so a failed
    write only clears [good]; a stream that is not good writes nothing. *)
Record ostream : Type := mk_ostream
  { dev : device; bufsize : nat; written : string; buffered : string;
    good : bool; sigpipe : bool }.

(** The buffer is written to the device.  Nothing is written when the
    buffer is empty. *)
Definition flush (os : ostream) : ostream :=
  match buffered os with
  | EmptyString => os
  | String _ _ =>
      match dev os with
      | accepting =>
          mk_ostream (dev os) (bufsize os) (written os ++ buffered os) ""
            (good os) (sigpipe os)
      | refusing =>
          mk_ostream (dev os) (bufsize os) (written os) "" false (sigpipe os)
      | broken_pipe =>
          mk_ostream (dev os) (bufsize os) (written os) "" (good os) true
      end
  end.

(** One byte goes to the stream: it is put in the buffer, after the
    buffer has been written to the device when the byte finds it
    full.  A process that has received SIGPIPE is gone and writes
    nothing more. *)
Definition ostream_put (c : ascii) (os : ostream) : ostream :=
  if good os && negb (sigpipe os) then
    let os' :=
      if (String.length (buffered os) <? bufsize os)%nat then os
      else flush os in
    if good os' && negb (sigpipe os') then
      mk_ostream (dev os') (bufsize os') (written os')
        (buffered os' ++ String c "") (good os') (sigpipe os')
    else os'
  else os.

(** [put] and [write] on the stream: the bytes go to the stream one
    after the other. *)
Fixpoint ostream_write (s : string) (os : ostream) : ostream :=
  match s with
  | EmptyString => os
  | String c rest => ostream_write rest (ostream_put c os)
  end.

(** A statement sequence of [main]: it runs on the stream and either
    yields a value or lets an exception escape. *)
Definition prog (A : Type) : Type := ostream -> result A * ostream.

Definition pret {A : Type} (a : A) : prog A := fun os => (Ok a, os).

Definition pbind {A B : Type} (p : prog A) (k : A -> prog B) : prog B :=
  fun os =>
    match p os with
    | (Ok a, os') => k a os'
    | (Throw e, os') => (Throw e, os')
    end.

Definition plift {A : Type} (r : result A) : prog A := fun os => (r, os).

Notation "x <~ p ;; k" := (pbind p (fun x => k))
  (at level 61, p at next level, right associativity).

(** [operator<<(std::ostream&, const basic_json&)] on a stream whose
    width is 0: the compact serialization, not forced to ASCII, goes to
    the stream; an exception of the serializer escapes after what had
    been handed to the stream. *)
Definition put_json (j : json) : prog unit :=
  fun os => let (text, r) := dump j false in (r, ostream_write text os).

(** [operator<<] of a stream and a string literal. *)
Definition put_string (s : string) : prog unit :=
  fun os => (Ok tt, ostream_write s os).

Definition newline : string := String "010" "".

(** How the process ends: [main] returned a value; or an exception
    left [main] and [std::terminate] ended the process; or a write to a
    pipe nobody reads raised SIGPIPE. *)
Inductive exit_status : Type :=
| exited (code : Z)
| terminated (e : exception)
| killed_by_sigpipe.

(** What a run leaves: the text that reached the device behind standard
    output and the way the process ended. *)
Record outcome : Type := mk_outcome
  { stdout : string; status : exit_status }.

(** A run of [main] in front of a device, with a stream buffer of [room]
    bytes.  When [main] returns, the buffer is written out before the
    process exits; [std::terminate] leaves it unwritten.  A process
    that received SIGPIPE ended there, whatever [main] would have done
    after the write. *)
Definition run (main : prog Z) (d : device) (room : nat) : outcome :=
  let (r, os) := main (mk_ostream d room "" "" true false) in
  if sigpipe os then mk_outcome (written os) killed_by_sigpipe
  else
    match r with
    | Ok code =>
        let os' := flush os in
        mk_outcome (written os')
          (if sigpipe os' then killed_by_sigpipe else exited code)
    | Throw e => mk_outcome (written os) (terminated e)
    end.

(** ** src/src/hello.cpp *)
Module hello_cpp.

(** Line 7: the vector holds [argv[0]] to [argv[argc - 1]], in order.
    The arguments are given as the list of their contents. *)
Definition collect (argv : list string) : list string := argv.

(** Line 8: [json j{{"Hello", "World"}, {"args", args}}]. *)
Definition greeting (args : list string) : result json :=
  hello <- braced [JString "Hello"; JString "World"] ;;
  rest <- braced [JString "args"; json_of_vector args] ;;
  braced [hello; rest].

(** Lines 6 to 10.  [main] ends without a return statement: it
    returns 0. *)
Definition main (argv : list string) : prog Z :=
  let args := collect argv in
  j <~ plift (greeting args) ;;
  _ <~ put_json j ;;
  _ <~ put_string newline ;;
  pret 0%Z.

End hello_cpp.

(** ** core/hello.h *)
Module hello.

(** Modelled from the spec: [hello::greet], declared in core/hello.h,
    which is not among the sources.  It returns a mapping with two
    keys, "Hello" mapped to the string "World" and "args" mapped to the
    input sequence unchanged. *)
Definition greet (args : list string) : result json :=
  Ok (JObject (map_emplace "args" (json_of_vector args)
                 (map_emplace "Hello" (JString "World") []))).

End hello.

(** ** src/src/main.cpp *)
Module main_cpp.
Section WithGreet.

(** [hello::greet] of core/hello.h. *)
Variable greet : list string -> result json.

(** Line 8: one [std::string] per argument, in order. *)
Definition collect (argv : list string) : list string := argv.

(** Lines 7 to 11. *)
Definition main (argv : list string) : prog Z :=
  let args := collect argv in
  j <~ plift (greet args) ;;
  _ <~ put_json j ;;
  _ <~ put_string newline ;;
  pret 0%Z.

End WithGreet.
End main_cpp.

(** ** src/test/main.cpp *)
Module test_main.
Section WithGreet.

Variable greet : list string -> result json.

(** The six [REQUIRE]s of the test case "Greeting is acceptable", in
    order, on the value [g] that [hello::greet] returned; a [REQUIRE]
    holds when its expression yields true without throwing. *)
Definition requirements (g : json) : list (result bool) :=
  [ Ok (contains g "Hello");
    v <- at_key g "Hello" ;; Ok (json_eqb v (JString "World"));
    Ok (contains g "args");
    v <- at_key g "args" ;; Ok (is_array v);
    v <- at_key g "args" ;; x <- at_index v 0 ;; Ok (json_eqb x (JString "foo"));
    v <- at_key g "args" ;; x <- at_index v 1 ;; Ok (json_eqb x (JString "bar")) ].

Definition holds (r : result bool) : bool :=
  match r with Ok b => b | Throw _ => false end.

(** Lines 10 to 19: the test case passes. *)
Definition greeting_is_acceptable : bool :=
  let args := ["foo"; "bar"] in
  match greet args with
  | Ok g => forallb holds (requirements g)
  | Throw _ => false
  end.

End WithGreet.

Section WithSession.

(** [Catch::Session().run(argc, argv)], the test framework's runner. *)
Variable session_run : list string -> Z.

(** Lines 21 to 25: the runner's result is returned when it is not 0;
    otherwise [main] ends without a return statement and returns 0. *)
Definition main (argv : list string) : Z :=
  let result := session_run argv in
  if negb (result =? 0)%Z then result else 0%Z.

End WithSession.
End test_main.

(** ** Reading JSON text back

    A reader for the text the serializer writes, used to say what the
    program's output denotes.  It follows the JSON grammar for the kinds
    of value of [json]: white space, the three literals, strings with
    all their escapes, arrays and objects.  Numbers are not values of
    [json] and are refused. *)

(** The decoder's next state alone. *)
Definition utf8_next (state : nat) (byte : ascii) : nat :=
  fst (decode state 0 byte).

(** The decoder accepts the whole string. *)
Fixpoint utf8_run (state : nat) (s : string) : nat :=
  match s with
  | EmptyString => state
  | String byte rest => utf8_run (utf8_next state byte) rest
  end.

Definition well_formed_utf8 (s : string) : bool :=
  (utf8_run UTF8_ACCEPT s =? UTF8_ACCEPT)%nat.

Definition is_ws (c : ascii) : bool :=
  match N_of_ascii c with
  | 32 | 9 | 10 | 13 => true
  | _ => false
  end%N.

Fixpoint skip_ws (s : string) : string :=
  match s with
  | String c rest => if is_ws c then skip_ws rest else s
  | EmptyString => EmptyString
  end.

Definition hex_value (c : ascii) : option N :=
  let n := N_of_ascii c in
  (if (48 <=? n) && (n <=? 57) then Some (n - 48)
   else if (97 <=? n) && (n <=? 102) then Some (n - 87)
   else if (65 <=? n) && (n <=? 70) then Some (n - 55)
   else None)%N.

Definition byte_of (n : N) : ascii := ascii_of_N n.

(** The UTF-8 encoding of a code point. *)
Definition to_utf8 (cp : N) : string :=
  (if cp <? 128 then String (byte_of cp) ""
  else if cp <? 2048 then
    String (byte_of (192 + cp / 64)) (String (byte_of (128 + cp mod 64)) "")
  else if cp <? 65536 then
    String (byte_of (224 + cp / 4096))
      (String (byte_of (128 + cp / 64 mod 64))
         (String (byte_of (128 + cp mod 64)) ""))
  else
    String (byte_of (240 + cp / 262144))
      (String (byte_of (128 + cp / 4096 mod 64))
         (String (byte_of (128 + cp / 64 mod 64))
            (String (byte_of (128 + cp mod 64)) ""))))%N.

(** Where the reader stands inside a string: between characters of
    the text (with the UTF-8 decoder's state), after a backslash, inside
    the four digits of a [u] escape, or between the two escapes of a
    surrogate pair. *)
Inductive scan_mode : Type :=
| in_text (state : nat)
| after_backslash
| in_hex (remaining : nat) (value : N) (high : option N)
| want_backslash (high : N)
| want_u (high : N).

Definition prepend (bytes : string) (r : option (string * string))
  : option (string * string) :=
  match r with
  | Some (s, rest) => Some (bytes ++ s, rest)
  | None => None
  end.

(** The body of a string, from after its opening quote: the bytes it
    denotes and the text after its closing quote. *)
Fixpoint scan_string (mode : scan_mode) (s : string)
  : option (string * string) :=
  match s with
  | EmptyString => None
  | String c rest =>
      match mode with
      | in_text state =>
          if (state =? UTF8_ACCEPT)%nat && Ascii.eqb c quote
          then Some ("", rest)
          else if (state =? UTF8_ACCEPT)%nat && Ascii.eqb c backslash
          then scan_string after_backslash rest
          else if (state =? UTF8_ACCEPT)%nat && (N_of_ascii c <? 32)
          then None
          else
            let state' := utf8_next state c in
            if (state' =? UTF8_REJECT)%nat then None
            else prepend (String c "") (scan_string (in_text state') rest)
      | after_backslash =>
          let plain (b : N) :=
            prepend (String (byte_of b) "")
              (scan_string (in_text UTF8_ACCEPT) rest) in
          match N_of_ascii c with
          | 34 => plain 34
          | 92 => plain 92
          | 47 => plain 47
          | 98 => plain 8
          | 102 => plain 12
          | 110 => plain 10
          | 114 => plain 13
          | 116 => plain 9
          | 117 => scan_string (in_hex 4 0 None) rest
          | _ => None
          end
      | in_hex remaining value high =>
          match hex_value c, remaining with
          | Some d, S (S remaining') =>
              scan_string (in_hex (S remaining') (value * 16 + d) high) rest
          | Some d, 1%nat =>
              let code := value * 16 + d in
              let is_high := (55296 <=? code) && (code <=? 56319) in
              let is_low := (56320 <=? code) && (code <=? 57343) in
              match high with
              | None =>
                  if is_high then scan_string (want_backslash code) rest
                  else if is_low then None
                  else prepend (to_utf8 code)
                         (scan_string (in_text UTF8_ACCEPT) rest)
              | Some h =>
                  if is_low
                  then prepend
                         (to_utf8 (65536 + (h - 55296) * 1024 + (code - 56320)))
                         (scan_string (in_text UTF8_ACCEPT) rest)
                  else None
              end
          | _, _ => None
          end
      | want_backslash high =>
          if Ascii.eqb c backslash then scan_string (want_u high) rest
          else None
      | want_u high =>
          if Ascii.eqb c "u" then scan_string (in_hex 4 0 (Some high)) rest
          else None
      end
  end%N.

(** The reader assigns each member to its key: a later member with the
    same key replaces the earlier one. *)
Fixpoint map_assign (k : string) (v : json) (m : list (string * json))
  : list (string * json) :=
  match m with
  | [] => [(k, v)]
  | (k', v') :: m' =>
      match String.compare k k' with
      | Lt => (k, v) :: m
      | Eq => (k, v) :: m'
      | Gt => (k', v') :: map_assign k v m'
      end
  end.

(** One value at the head of the text, after white space, and the text
    that follows it.  [fuel] bounds the number of nested calls. *)
Fixpoint parse_value (fuel : nat) (s : string) : option (json * string) :=
  match fuel with
  | O => None
  | S fuel' =>
      match skip_ws s with
      | String "n" (String "u" (String "l" (String "l" rest))) =>
          Some (JNull, rest)
      | String "t" (String "r" (String "u" (String "e" rest))) =>
          Some (JBool true, rest)
      | String "f" (String "a" (String "l" (String "s" (String "e" rest)))) =>
          Some (JBool false, rest)
      | String "034" rest =>
          match scan_string (in_text UTF8_ACCEPT) rest with
          | Some (str, rest') => Some (JString str, rest')
          | None => None
          end
      | String "[" rest =>
          match skip_ws rest with
          | String "]" rest' => Some (JArray [], rest')
          | _ =>
              match parse_items fuel' rest with
              | Some (items, rest') => Some (JArray items, rest')
              | None => None
              end
          end
      | String "{" rest =>
          match skip_ws rest with
          | String "}" rest' => Some (JObject [], rest')
          | _ =>
              match parse_members fuel' rest [] with
              | Some (members, rest') => Some (JObject members, rest')
              | None => None
              end
          end
      | _ => None
      end
  end
with parse_items (fuel : nat) (s : string) : option (list json * string) :=
  match fuel with
  | O => None
  | S fuel' =>
      match parse_value fuel' s with
      | Some (v, rest) =>
          match skip_ws rest with
          | String "," rest' =>
              match parse_items fuel' rest' with
              | Some (vs, rest'') => Some (v :: vs, rest'')
              | None => None
              end
          | String "]" rest' => Some ([v], rest')
          | _ => None
          end
      | None => None
      end
  end
with parse_members (fuel : nat) (s : string) (m : list (string * json))
  : option (list (string * json) * string) :=
  match fuel with
  | O => None
  | S fuel' =>
      match skip_ws s with
      | String "034" rest =>
          match scan_string (in_text UTF8_ACCEPT) rest with
          | Some (k, rest') =>
              match skip_ws rest' with
              | String ":" rest'' =>
                  match parse_value fuel' rest'' with
                  | Some (v, rest3) =>
                      match skip_ws rest3 with
                      | String "," rest4 =>
                          parse_members fuel' rest4 (map_assign k v m)
                      | String "}" rest4 => Some (map_assign k v m, rest4)
                      | _ => None
                      end
                  | None => None
                  end
              | _ => None
              end
          | None => None
          end
      | _ => None
      end
  end.

(** A whole text: one value, with nothing but white space around it. *)
Definition parse (text : string) : option json :=
  match parse_value (String.length text) text with
  | Some (j, rest) =>
      match skip_ws rest with
      | EmptyString => Some j
      | _ => None
      end
  | None => None
  end.

(** The class of a byte in the decoder's table, and the code point the
    decoder starts from when the byte opens a character. *)
Definition byte_class (c : ascii) : nat := nth (nat_of_ascii c) utf8d 0%nat.

Definition lead_codepoint (c : ascii) : N :=
  N.land (N.shiftr 255 (N.of_nat (byte_class c))) (N_of_ascii c).

(** What the table promises of each byte, by its class. *)
Definition class_ok (c : ascii) : bool :=
  let n := N_of_ascii c in
  let l := lead_codepoint c in
  let low := (n mod 64)%N in
  match byte_class c with
  | 0 => (l =? n)%N && (n <? 128)%N
  | 2 => (2 <=? l)%N && (l <? 64)%N
  | 3 | 4 | 5 | 6 => (1 <=? l)%N && (l <? 64)%N
  | 10 | 11 => (l <? 64)%N
  | 7 => (32 <=? low)%N
  | 9 => (16 <=? low)%N
  | 1 | 8 => true
  | _ => false
  end%nat.

(** The code point the decoder holds in each of its states, while it
    is inside a character. *)
Definition cp_inv (st : nat) (cp : N) : Prop :=
  match st with
  | 0 | 1 => True
  | 2 => (2 <= cp < 262144)%N
  | 3 => (1 <= cp < 4096)%N
  | 4 | 6 => (cp < 64)%N
  | 5 | 7 | 8 => (1 <= cp < 64)%N
  | _ => False
  end%nat.

(** A string literal between its quotes, and the text the serializer
    writes before the array of the arguments. *)
Definition quoted (s : string) : string := String quote (s ++ String quote "").

Definition greeting_head : string :=
  "{" ++ quoted "Hello" ++ ":" ++ quoted "World" ++ "," ++ quoted "args" ++ ":".

(** The byte occurs in the text. *)
Fixpoint has_byte (b : ascii) (s : string) : bool :=
  match s with
  | EmptyString => false
  | String c rest => Ascii.eqb c b || has_byte b rest
  end.

(** The keys of an object, in key order. *)
Definition keys (j : json) : list string :=
  match j with
  | JObject members => map fst members
  | _ => []
  end.

(** Every initial part of a text, the empty one and the text itself
    included. *)
Fixpoint prefixes (s : string) : list string :=
  match s with
  | EmptyString => [EmptyString]
  | String c rest => EmptyString :: map (String c) (prefixes rest)
  end.

Definition unreadable (text : string) : bool :=
  match parse text with
  | Some _ => false
  | None => true
  end.

(** ** Notions for the properties of the output *)

(** The escaped text of a string from a decoder state, byte by byte and
    with no buffer in between, and the way the decoder ends: what
    [dump_escaped_from] hands over when nothing is held back. *)
Fixpoint escape_from (state : nat) (codepoint : N) (s : string)
  (ensure_ascii : bool) : writer unit :=
  match s with
  | EmptyString =>
      if (state =? UTF8_ACCEPT)%nat then wret tt
      else wthrow (type_error 316)
  | String byte rest =>
      let (state', codepoint') := decode state codepoint byte in
      if (state' =? UTF8_ACCEPT)%nat then
        write_characters (escaped codepoint' byte ensure_ascii)
        >> escape_from state' codepoint' rest ensure_ascii
      else if (state' =? UTF8_REJECT)%nat then wthrow (type_error 316)
      else
        (if ensure_ascii then wret tt else write_character byte)
        >> escape_from state' codepoint' rest ensure_ascii
  end.


(** No byte of the text is a control character (below 32). *)
Fixpoint control_free (s : string) : bool :=
  match s with
  | EmptyString => true
  | String c rest => (32 <=? N_of_ascii c)%N && control_free rest
  end.



(** The byte lies between the two bounds, both included. *)
Definition between (lo hi : N) (c : ascii) : bool :=
  (lo <=? N_of_ascii c)%N && (N_of_ascii c <=? hi)%N.

(** Well-formed UTF-8 as the Unicode standard tabulates it, by the
    ranges of the bytes of each character: one byte below 128; two
    bytes from 194 to 223; three bytes from 224 to 239, without the
    overlong forms after 224 and the surrogates after 237; four bytes
    from 240 to 244, without the overlong forms after 240 and the code
    points past 10FFFF after 244. *)
Fixpoint utf8_by_ranges (s : string) : bool :=
  match s with
  | EmptyString => true
  | String b0 r0 =>
      if between 0 127 b0 then utf8_by_ranges r0
      else
        match r0 with
        | EmptyString => false
        | String b1 r1 =>
            if between 194 223 b0
            then between 128 191 b1 && utf8_by_ranges r1
            else
              match r1 with
              | EmptyString => false
              | String b2 r2 =>
                  if between 224 239 b0 then
                    (if between 224 224 b0 then between 160 191 b1
                     else if between 237 237 b0 then between 128 159 b1
                     else between 128 191 b1)
                    && between 128 191 b2 && utf8_by_ranges r2
                  else
                    match r2 with
                    | EmptyString => false
                    | String b3 r3 =>
                        between 240 244 b0
                        && (if between 240 240 b0 then between 144 191 b1
                            else if between 244 244 b0
                                 then between 128 143 b1
                                 else between 128 191 b1)
                        && between 128 191 b2 && between 128 191 b3
                        && utf8_by_ranges r3
                    end
              end
        end
  end.



(** Every string of the value, the keys of its objects included,
    satisfies [p]. *)
Fixpoint all_strings (p : string -> bool) (j : json) : bool :=
  match j with
  | JString s => p s
  | JArray items => forallb (all_strings p) items
  | JObject members =>
      forallb (fun kv => p (fst kv) && all_strings p (snd kv)) members
  | _ => true
  end.

(** ** Proof steps used more than once *)

Ltac to_props :=
  repeat match goal with
    | H : (_ && _) = true |- _ => apply andb_prop in H; destruct H
    | H : (_ <=? _)%N = true |- _ => apply N.leb_le in H
    | H : (_ <? _)%N = true |- _ => apply N.ltb_lt in H
    | H : (_ =? _)%N = true |- _ => apply N.eqb_eq in H
    end.

Ltac table_lookup :=
  match goal with
  | |- context [nth ?i utf8d 0%nat] =>
      let v := eval vm_compute in (nth i utf8d 0%nat) in
      change (nth i utf8d 0%nat) with v in *
  end.

(** One case of [decode_inv]: the state is known, the class of the byte
    is split into its twelve values. *)
Ltac decode_case Hc Hnext :=
  match goal with
  | |- context [byte_class ?c] =>
      destruct (byte_class c) as [|[|[|[|[|[|[|[|[|[|[|[|?]]]]]]]]]]]];
      try discriminate Hc; to_props; table_lookup;
      try (exfalso; apply Hnext; reflexivity);
      cbv [cp_inv UTF8_ACCEPT];
      (split; [ try exact I; lia | intros; try discriminate; try lia ])
  end.

(** * Properties *)

(** ** Values and their comparison *)


Lemma json_eqb_refl (j : json) : json_eqb j j = true.
Proof.
  induction j as [ | b | s | items IH | members IH ] using json_ind; simpl.
  - reflexivity.
  - apply Bool.eqb_reflx.
  - apply String.eqb_refl.
  - induction IH as [ | x l Hx _ IHl ]; [ reflexivity | ].
    now rewrite Hx, IHl.
  - induction IH as [ | [k x] l Hx _ IHl ]; [ reflexivity | ].
    simpl in Hx. now rewrite String.eqb_refl, Hx, IHl.
Qed.

Lemma json_eqb_eq (a b : json) : json_eqb a b = true -> a = b.
Proof.
  revert b.
  induction a as [ | x | s | items IH | members IH ] using json_ind;
    intros [ | y | t | items' | members' ]; simpl; try discriminate.
  - reflexivity.
  - intros H. apply Bool.eqb_prop in H. now subst.
  - intros H. apply String.eqb_eq in H. now subst.
  - intros H. f_equal. revert items' H.
    induction IH as [ | x l Hx _ IHl ]; intros [ | y l' ]; try discriminate.
    + reflexivity.
    + intros H. apply andb_prop in H as [H1 H2].
      f_equal; [ now apply Hx | now apply IHl ].
  - intros H. f_equal. revert members' H.
    induction IH as [ | [k x] l Hx _ IHl ]; intros [ | [k' y] l' ];
      try discriminate.
    + reflexivity.
    + intros H. apply andb_prop in H as [H12 H3].
      apply andb_prop in H12 as [H1 H2].
      apply String.eqb_eq in H1. simpl in Hx. apply Hx in H2.
      apply IHl in H3. now subst.
Qed.

(** ** The greeting record of hello.cpp *)

(** A braced list of a string and one more value is no list of pairs:
    the constructor makes it an array. *)
Lemma braced_key_value (k : string) (v : json) :
  braced [JString k; v] = Ok (JArray [JString k; v]).
Proof. reflexivity. Qed.

(** The outer braced list is a list of two pairs: the constructor makes
    it an object, with "Hello" before "args" in key order. *)
Lemma greeting_record (args : list string) :
  hello_cpp.greeting args
  = Ok (JObject [("Hello", JString "World"); ("args", json_of_vector args)]).
Proof.
  unfold hello_cpp.greeting.
  rewrite !braced_key_value. simpl bind.
  reflexivity.
Qed.

Lemma at_index_json_of_vector (A : list string) (i : nat) :
  at_index (json_of_vector A) i
  = match nth_error A i with
    | Some s => Ok (JString s)
    | None => Throw (out_of_range 401)
    end.
Proof.
  unfold json_of_vector, at_index.
  rewrite nth_error_map. now destruct (nth_error A i).
Qed.

Lemma json_of_vector_inj (A B : list string) :
  json_of_vector A = json_of_vector B -> A = B.
Proof.
  unfold json_of_vector. intros H. injection H as H.
  revert B H. induction A as [ | a A IH ]; intros [ | b B ] H;
    try discriminate; [ reflexivity | ].
  injection H as -> H. f_equal. now apply IH.
Qed.

(** C1: for every sequence of strings [A] the greeting built on line 8
    of hello.cpp is the mapping with exactly the two keys "Hello" and
    "args", the first mapped to the string "World" and the second to the
    array that holds the strings of [A], each as it is and in the order
    of [A]: the member has the length of [A] and its element [i] is the
    string at position [i] of [A]. *)
Theorem greeting_is_two_key_mapping (A : list string) :
  exists j,
    hello_cpp.greeting A = Ok j
    /\ j = JObject [("Hello", JString "World");
                    ("args", JArray (map JString A))]
    /\ is_object j = true
    /\ size j = 2%nat
    /\ keys j = ["Hello"; "args"]
    /\ (forall k, contains j k = true <-> k = "Hello" \/ k = "args")
    /\ at_key j "Hello" = Ok (JString "World")
    /\ at_key j "args" = Ok (JArray (map JString A))
    /\ (exists arr,
          at_key j "args" = Ok arr
          /\ is_array arr = true
          /\ size arr = List.length A
          /\ forall i, at_index arr i
                       = match nth_error A i with
                         | Some s => Ok (JString s)
                         | None => Throw (out_of_range 401)
                         end).
Proof.
  eexists. split; [ apply greeting_record | ].
  split; [ reflexivity | ].
  repeat split; try reflexivity.
  - unfold contains, map_find.
    destruct (String.eqb k "Hello") eqn:E1.
    + apply String.eqb_eq in E1. now left.
    + destruct (String.eqb k "args") eqn:E2; [ | discriminate ].
      apply String.eqb_eq in E2. now right.
  - intros [-> | ->]; reflexivity.
  - exists (json_of_vector A).
    split; [ reflexivity | ].
    split; [ reflexivity | ].
    split; [ apply length_map | ].
    apply at_index_json_of_vector.
Qed.

(** C2: the "args" member of the greeting is the input sequence itself:
    an array with as many elements as the input, element [i] being the
    string at position [i] of the input, and comparing equal to the
    input converted to a value; two inputs with the same member are the
    same sequence. *)
Theorem greeting_args_identity (A : list string) :
  exists j arr,
    hello_cpp.greeting A = Ok j
    /\ at_key j "args" = Ok arr
    /\ is_array arr = true
    /\ size arr = List.length A
    /\ (forall i, at_index arr i
                  = match nth_error A i with
                    | Some s => Ok (JString s)
                    | None => Throw (out_of_range 401)
                    end)
    /\ json_eqb arr (json_of_vector A) = true
    /\ (forall B, arr = json_of_vector B <-> B = A).
Proof.
  exists (JObject [("Hello", JString "World"); ("args", json_of_vector A)]),
         (json_of_vector A).
  split; [ apply greeting_record | ].
  split; [ reflexivity | ].
  split; [ reflexivity | ].
  split; [ apply length_map | ].
  split; [ apply at_index_json_of_vector | ].
  split; [ apply json_eqb_refl | ].
  intros B. split.
  - intros H. symmetry. now apply json_of_vector_inj.
  - now intros ->.
Qed.

(** C3: whatever the input, the "Hello" member of the greeting is there
    and compares equal to the string "World"; any other input gives the
    same member. *)
Theorem greeting_hello_is_world (A : list string) :
  exists j v,
    hello_cpp.greeting A = Ok j
    /\ contains j "Hello" = true
    /\ at_key j "Hello" = Ok v
    /\ json_eqb v (JString "World") = true
    /\ v = JString "World"
    /\ forall B, exists j',
         hello_cpp.greeting B = Ok j' /\ at_key j' "Hello" = Ok v.
Proof.
  exists (JObject [("Hello", JString "World"); ("args", json_of_vector A)]),
         (JString "World").
  split; [ apply greeting_record | ].
  repeat split.
  intros B. eexists. split; [ apply greeting_record | reflexivity ].
Qed.

(** C4: the construction of the greeting returns a record for every
    sequence of strings, the empty one included: none of its three
    constructor calls throws, and as a step of [main] it leaves the
    output stream as it was. *)
Theorem greeting_total (A : list string) :
  (exists j, hello_cpp.greeting A = Ok j /\ is_object j = true)
  /\ (exists j, hello_cpp.greeting [] = Ok j /\ at_key j "args" = Ok (JArray []))
  /\ (forall os, exists j, plift (hello_cpp.greeting A) os = (Ok j, os)).
Proof.
  split; [ | split ].
  - eexists. split; [ apply greeting_record | reflexivity ].
  - eexists. split; [ apply greeting_record | reflexivity ].
  - intros os. eexists. unfold plift. now rewrite greeting_record.
Qed.

(** C5: two constructions of the greeting from the same input [A] both
    return, each the mapping of "Hello" to "World" and of "args" to the
    strings of [A], and the library's comparison finds the two records
    equal.  The comparison is no empty test: against the record of an
    input [B] it holds only when [B] is [A]. *)
Theorem greeting_deterministic (A B : list string) :
  exists first second other,
    hello_cpp.greeting A = Ok first
    /\ hello_cpp.greeting A = Ok second
    /\ hello_cpp.greeting B = Ok other
    /\ first = JObject [("Hello", JString "World");
                        ("args", JArray (map JString A))]
    /\ json_eqb first second = true
    /\ json_eqb second first = true
    /\ (json_eqb first other = true <-> A = B).
Proof.
  exists (JObject [("Hello", JString "World"); ("args", json_of_vector A)]),
         (JObject [("Hello", JString "World"); ("args", json_of_vector A)]),
         (JObject [("Hello", JString "World"); ("args", json_of_vector B)]).
  split; [ apply greeting_record | ].
  split; [ apply greeting_record | ].
  split; [ apply greeting_record | ].
  split; [ reflexivity | ].
  split; [ apply json_eqb_refl | ].
  split; [ apply json_eqb_refl | ].
  split.
  - intros H. apply json_eqb_eq in H.
    assert (E : json_of_vector A = json_of_vector B) by congruence.
    now apply json_of_vector_inj.
  - intros ->. apply json_eqb_refl.
Qed.

(** ** The UTF-8 decoder *)

Lemma decode_state (st : nat) (cp : N) (c : ascii) :
  fst (decode st cp c) = utf8_next st c.
Proof. reflexivity. Qed.

Lemma class_ok_all (c : ascii) : class_ok c = true.
Proof. destruct c as [[] [] [] [] [] [] [] []]; vm_compute; reflexivity. Qed.

Lemma utf8_next_class (st : nat) (c : ascii) :
  utf8_next st c = nth (256 + st * 16 + byte_class c) utf8d 0%nat.
Proof. reflexivity. Qed.

Lemma continuation_codepoint (cp : N) (c : ascii) :
  (cp < 67108864)%N ->
  N.lor (N.land (N_of_ascii c) 63) (N.shiftl cp 6 mod 2 ^ 32)
  = (cp * 64 + N_of_ascii c mod 64)%N.
Proof.
  intros Hcp.
  rewrite N.shiftl_mul_pow2.
  rewrite N.mod_small by (change (2 ^ 6)%N with 64%N; change (2 ^ 32)%N with 4294967296%N; lia).
  change 63%N with (N.ones 6). rewrite N.land_ones.
  change (2 ^ 6)%N with 64%N.
  assert (Hdisj : N.land (N_of_ascii c mod 64) (cp * 64) = 0%N).
  { change 64%N with (2 ^ 6)%N. rewrite <- N.land_ones, <- N.shiftl_mul_pow2.
    rewrite <- N.land_assoc, (N.land_comm (N.ones 6)), N.land_ones.
    rewrite N.shiftl_mul_pow2, N.Div0.mod_mul. apply N.land_0_r. }
  rewrite <- N.lxor_lor by exact Hdisj.
  rewrite <- N.add_nocarry_lxor by exact Hdisj.
  apply N.add_comm.
Qed.

Lemma decode_snd_accept (cp : N) (c : ascii) :
  snd (decode UTF8_ACCEPT cp c) = lead_codepoint c.
Proof. reflexivity. Qed.

Lemma decode_snd_inside (st : nat) (cp : N) (c : ascii) :
  st <> UTF8_ACCEPT -> (cp < 67108864)%N ->
  snd (decode st cp c) = (cp * 64 + N_of_ascii c mod 64)%N.
Proof.
  intros Hst Hcp. unfold decode. cbv zeta. unfold snd.
  destruct (Nat.eqb_spec st UTF8_ACCEPT) as [E | _]; [ contradiction | ].
  now apply continuation_codepoint.
Qed.

(** One step of the decoder keeps [cp_inv], and a character of more
    than one byte ends on a code point of 128 at least. *)
Lemma decode_inv (st : nat) (cp : N) (c : ascii) :
  cp_inv st cp -> utf8_next st c <> UTF8_REJECT ->
  cp_inv (utf8_next st c) (snd (decode st cp c))
  /\ (st <> UTF8_ACCEPT -> utf8_next st c = UTF8_ACCEPT ->
      (128 <= snd (decode st cp c))%N).
Proof.
  intros Hinv Hnext.
  pose proof (class_ok_all c) as Hc. unfold class_ok in Hc. cbv zeta in Hc.
  pose proof (N.mod_lt (N_of_ascii c) 64 ltac:(discriminate)) as Hlow.
  rewrite utf8_next_class in *.
  destruct st as [|[|[|[|[|[|[|[|[|st]]]]]]]]]; cbv [cp_inv] in Hinv;
    try contradiction;
    try (rewrite decode_snd_inside by (try discriminate; lia));
    remember (N_of_ascii c mod 64)%N as low eqn:Hm; clear Hm.
  - rewrite decode_snd_accept. decode_case Hc Hnext.
    all: now contradiction.
  - exfalso. apply Hnext.
    destruct (byte_class c) as [|[|[|[|[|[|[|[|[|[|[|[|t]]]]]]]]]]]];
      try discriminate Hc; reflexivity.
  - decode_case Hc Hnext.
  - decode_case Hc Hnext.
  - decode_case Hc Hnext.
  - decode_case Hc Hnext.
  - decode_case Hc Hnext.
  - decode_case Hc Hnext.
  - decode_case Hc Hnext.
Qed.

(** ** The output adapter *)

Lemma wseq_ok {A : Type} (w : writer unit) (k : writer A) (out : string)
  (a : A) :
  w >> k = (out, Ok a) ->
  exists o1 o2, w = (o1, Ok tt) /\ k = (o2, Ok a) /\ out = o1 ++ o2.
Proof.
  destruct w as [o1 [[] | e]], k as [o2 r]; simpl; intros H.
  - injection H as <- ->. now exists o1, o2.
  - discriminate.
Qed.

Lemma wseq_write {A : Type} (s : string) (k : writer A) :
  write_characters s >> k = (s ++ fst k, snd k).
Proof. reflexivity. Qed.

Lemma snd_wseq {A : Type} (w : writer unit) (k : writer A) :
  snd (w >> k)
  = match snd w with
    | Ok _ => snd k
    | Throw e => Throw e
    end.
Proof. now destruct w as [o [[] | e]]. Qed.

Lemma append_assoc (a b c : string) : (a ++ b) ++ c = a ++ (b ++ c).
Proof. induction a as [ | x a IH ]; simpl; [ reflexivity | now rewrite IH ]. Qed.

(** ** Strings: what the serializer writes, the reader reads back *)

Lemma escaped_large (cp : N) (c : ascii) :
  (128 <= cp)%N -> escaped cp c false = String c "".
Proof.
  intros H. destruct cp as [ | p ]; [ lia | ].
  do 7 (destruct p as [ p | p | ]; try lia); reflexivity.
Qed.

(** A character of one byte: the reader undoes whatever escape the
    serializer chose for it. *)
Lemma scan_escaped_ascii (c : ascii) (tail : string) :
  utf8_next UTF8_ACCEPT c = UTF8_ACCEPT ->
  scan_string (in_text UTF8_ACCEPT)
    (escaped (lead_codepoint c) c false ++ tail)
  = prepend (String c "") (scan_string (in_text UTF8_ACCEPT) tail).
Proof.
  destruct c as [[] [] [] [] [] [] [] []]; intros H; vm_compute in H;
    try discriminate H; reflexivity.
Qed.

(** The first byte of a longer character is copied, and the reader
    takes it as text. *)
Lemma scan_lead_byte (c : ascii) (tail : string) :
  utf8_next UTF8_ACCEPT c <> UTF8_ACCEPT ->
  utf8_next UTF8_ACCEPT c <> UTF8_REJECT ->
  scan_string (in_text UTF8_ACCEPT) (String c tail)
  = prepend (String c "")
      (scan_string (in_text (utf8_next UTF8_ACCEPT c)) tail).
Proof.
  destruct c as [[] [] [] [] [] [] [] []]; intros H0 H1;
    vm_compute in H0, H1; try (now contradiction H0);
    try (now contradiction H1); reflexivity.
Qed.

Lemma scan_inside (st : nat) (c : ascii) (tail : string) :
  st <> UTF8_ACCEPT -> utf8_next st c <> UTF8_REJECT ->
  scan_string (in_text st) (String c tail)
  = prepend (String c "") (scan_string (in_text (utf8_next st c)) tail).
Proof.
  intros Hst Hnext. simpl.
  destruct (Nat.eqb_spec st UTF8_ACCEPT) as [E | _]; [ contradiction | ].
  simpl. destruct (Nat.eqb_spec (utf8_next st c) UTF8_REJECT) as [E | _];
    [ contradiction | reflexivity ].
Qed.

Lemma escape_from_nil (st : nat) (cp : N) (e : bool) :
  escape_from st cp "" e
  = if (st =? UTF8_ACCEPT)%nat then wret tt else wthrow (type_error 316).
Proof. reflexivity. Qed.

Lemma escape_from_cons (st : nat) (cp : N) (c : ascii) (s : string)
  (e : bool) :
  escape_from st cp (String c s) e
  = let (st', cp') := decode st cp c in
    if (st' =? UTF8_ACCEPT)%nat then
      write_characters (escaped cp' c e) >> escape_from st' cp' s e
    else if (st' =? UTF8_REJECT)%nat then wthrow (type_error 316)
    else (if e then wret tt else write_character c)
         >> escape_from st' cp' s e.
Proof. reflexivity. Qed.

(** The text written for a string, followed by a quote, reads back as
    that string.  Stated from any state of the decoder, for the
    induction. *)
Lemma scan_escape_from (s : string) :
  forall (st : nat) (cp : N) (out rest : string),
    cp_inv st cp ->
    escape_from st cp s false = (out, Ok tt) ->
    scan_string (in_text st) (out ++ String quote rest) = Some (s, rest).
Proof.
  induction s as [ | c s IH ]; intros st cp out rest Hinv H.
  - rewrite escape_from_nil in H.
    destruct (Nat.eqb_spec st UTF8_ACCEPT) as [-> | _]; [ | discriminate ].
    injection H as <-. reflexivity.
  - rewrite escape_from_cons in H.
    pose proof (decode_state st cp c) as Hst'.
    pose proof (decode_inv st cp c Hinv) as Hstep.
    destruct (decode st cp c) as [st' cp'] eqn:D. simpl in Hst', Hstep.
    subst st'.
    destruct (Nat.eqb_spec (utf8_next st c) UTF8_ACCEPT) as [E0 | N0].
    + apply wseq_ok in H as (o1 & o2 & H1 & H2 & ->).
      injection H1 as <-. rewrite append_assoc.
      destruct (Nat.eq_dec st UTF8_ACCEPT) as [-> | Hst].
      * assert (cp' = lead_codepoint c) as ->
          by (rewrite <- (decode_snd_accept cp c), D; reflexivity).
        rewrite scan_escaped_ascii by exact E0.
        rewrite E0 in H2. rewrite (IH UTF8_ACCEPT _ _ rest I H2). reflexivity.
      * destruct Hstep as [_ Hbig]; [ rewrite E0; discriminate | ].
        rewrite escaped_large by (apply Hbig; assumption).
        change (String c "" ++ o2 ++ String quote rest)
          with (String c (o2 ++ String quote rest)).
        rewrite scan_inside by (try assumption; rewrite E0; discriminate).
        rewrite E0 in *. rewrite (IH UTF8_ACCEPT _ _ rest I H2). reflexivity.
    + destruct (Nat.eqb_spec (utf8_next st c) UTF8_REJECT) as [E1 | N1];
        [ discriminate | ].
      apply wseq_ok in H as (o1 & o2 & H1 & H2 & ->).
      injection H1 as <-.
      destruct (Hstep N1) as [Hinv' _].
      change ((String c "" ++ o2) ++ String quote rest)
        with (String c (o2 ++ String quote rest)).
      destruct (Nat.eq_dec st UTF8_ACCEPT) as [-> | Hst].
      * rewrite scan_lead_byte by assumption.
        rewrite (IH _ _ _ rest Hinv' H2). reflexivity.
      * rewrite scan_inside by assumption.
        rewrite (IH _ _ _ rest Hinv' H2). reflexivity.
Qed.

(** *** The buffer of [dump_escaped]

    The serializer with its buffer ends as the unbuffered one does; it
    hands over the same text when it returns, and an initial part of it
    when it throws. *)

Lemma append_empty_r (a : string) : a ++ "" = a.
Proof. induction a as [ | x a IH ]; simpl; [ reflexivity | now rewrite IH ]. Qed.

Lemma dump_escaped_from_cons (st : nat) (cp : N) (buf : string) (c : ascii)
  (s : string) (e : bool) :
  dump_escaped_from st cp buf (String c s) e
  = let (st', cp') := decode st cp c in
    if (st' =? UTF8_ACCEPT)%nat then
      if (string_buffer_size - String.length (buf ++ escaped cp' c e) <? 13)%nat
      then write_characters (buf ++ escaped cp' c e)
           >> dump_escaped_from st' cp' "" s e
      else dump_escaped_from st' cp' (buf ++ escaped cp' c e) s e
    else if (st' =? UTF8_REJECT)%nat then wthrow (type_error 316)
    else dump_escaped_from st' cp' (if e then buf else buf ++ String c "") s e.
Proof. reflexivity. Qed.

Lemma dump_escaped_from_buffered (e : bool) (s : string) :
  forall (st : nat) (cp : N) (buf : string),
    snd (dump_escaped_from st cp buf s e) = snd (escape_from st cp s e)
    /\ exists tail,
         buf ++ fst (escape_from st cp s e)
         = fst (dump_escaped_from st cp buf s e) ++ tail
         /\ (snd (escape_from st cp s e) = Ok tt -> tail = "").
Proof.
  induction s as [ | c s IH ]; intros st cp buf.
  - rewrite escape_from_nil. cbn [dump_escaped_from].
    destruct (st =? UTF8_ACCEPT)%nat.
    + destruct buf as [ | b buf ].
      * split; [ reflexivity | ]. exists "". now split.
      * split; [ reflexivity | ]. exists "". cbn [Nat.ltb Nat.leb String.length].
        cbn [write_characters wret fst snd]. rewrite !append_empty_r.
        now split.
    + split; [ reflexivity | ]. exists buf. cbn [wthrow fst snd].
      rewrite append_empty_r. split; [ reflexivity | discriminate ].
  - rewrite escape_from_cons, dump_escaped_from_cons.
    destruct (decode st cp c) as [st' cp'].
    destruct (st' =? UTF8_ACCEPT)%nat.
    + destruct (string_buffer_size
                - String.length (buf ++ escaped cp' c e) <? 13)%nat;
        rewrite !wseq_write; cbn [fst snd].
      * destruct (IH st' cp' "") as (Hs & tail & Ht & Hok).
        split; [ exact Hs | ]. exists tail. split; [ | exact Hok ].
        cbn [append] in Ht. rewrite Ht, !append_assoc. reflexivity.
      * destruct (IH st' cp' (buf ++ escaped cp' c e)) as (Hs & tail & Ht & Hok).
        split; [ exact Hs | ]. exists tail. split; [ | exact Hok ].
        rewrite <- append_assoc. exact Ht.
    + destruct (st' =? UTF8_REJECT)%nat.
      * split; [ reflexivity | ]. exists buf. cbn [wthrow fst snd].
        rewrite append_empty_r. split; [ reflexivity | discriminate ].
      * destruct e.
        -- destruct (IH st' cp' buf) as (Hs & tail & Ht & Hok).
           rewrite snd_wseq. cbn [wret snd].
           split; [ exact Hs | ]. exists tail.
           destruct (escape_from st' cp' s true) as [o r].
           cbn [wseq wret fst snd append] in *. now split.
        -- destruct (IH st' cp' (buf ++ String c "")) as (Hs & tail & Ht & Hok).
           rewrite snd_wseq. cbn [write_character snd].
           split; [ exact Hs | ]. exists tail.
           destruct (escape_from st' cp' s false) as [o r].
           cbn [wseq write_character fst snd] in *.
           rewrite <- append_assoc. now split.
Qed.

Lemma dump_escaped_snd (s : string) (e : bool) :
  snd (dump_escaped s e) = snd (escape_from UTF8_ACCEPT 0 s e).
Proof. apply (dump_escaped_from_buffered e s UTF8_ACCEPT 0 ""). Qed.

(** When either of the two returns, they hand over the same text. *)
Lemma dump_escaped_ok (s out : string) (e : bool) :
  dump_escaped s e = (out, Ok tt)
  <-> escape_from UTF8_ACCEPT 0 s e = (out, Ok tt).
Proof.
  unfold dump_escaped.
  destruct (dump_escaped_from_buffered e s UTF8_ACCEPT 0 "")
    as (Hs & tail & Ht & Hok).
  destruct (dump_escaped_from UTF8_ACCEPT 0 "" s e) as [o r].
  destruct (escape_from UTF8_ACCEPT 0 s e) as [o' r'].
  cbn [fst snd append] in *. subst r'.
  split; intros H; injection H as <- ->; rewrite (Hok eq_refl) in Ht;
    rewrite append_empty_r in Ht; now subst.
Qed.

(** What the serializer hands over is an initial part of the unbuffered
    text. *)
Lemma dump_escaped_part (s : string) (e : bool) :
  exists tail,
    fst (escape_from UTF8_ACCEPT 0 s e) = fst (dump_escaped s e) ++ tail.
Proof.
  destruct (dump_escaped_from_buffered e s UTF8_ACCEPT 0 "")
    as (_ & tail & Ht & _).
  now exists tail.
Qed.

Lemma scan_dump_escaped (s out rest : string) :
  dump_escaped s false = (out, Ok tt) ->
  scan_string (in_text UTF8_ACCEPT) (out ++ String quote rest)
  = Some (s, rest).
Proof.
  intros H. apply dump_escaped_ok in H. revert H.
  apply scan_escape_from. exact I.
Qed.

(** *** When the serializer throws *)

Lemma utf8_next_reject (c : ascii) : utf8_next UTF8_REJECT c = UTF8_REJECT.
Proof.
  pose proof (class_ok_all c) as Hc. unfold class_ok in Hc.
  rewrite utf8_next_class.
  destruct (byte_class c) as [|[|[|[|[|[|[|[|[|[|[|[|t]]]]]]]]]]]];
    try discriminate Hc; reflexivity.
Qed.

Lemma utf8_run_reject (s : string) : utf8_run UTF8_REJECT s = UTF8_REJECT.
Proof.
  induction s as [ | c s IH ]; [ reflexivity | ].
  simpl utf8_run. now rewrite utf8_next_reject.
Qed.

(** The strict error handler: a string is written to its end exactly
    when the decoder accepts it, and error 316 is thrown otherwise. *)
Lemma escape_from_result (s : string) :
  forall (st : nat) (cp : N),
    snd (escape_from st cp s false)
    = if (utf8_run st s =? UTF8_ACCEPT)%nat then Ok tt
      else Throw (type_error 316).
Proof.
  induction s as [ | c s IH ]; intros st cp.
  - rewrite escape_from_nil. simpl utf8_run.
    now destruct (st =? UTF8_ACCEPT)%nat.
  - rewrite escape_from_cons.
    pose proof (decode_state st cp c) as Hst'.
    destruct (decode st cp c) as [st' cp']. simpl in Hst'. subst st'.
    change (utf8_run st (String c s)) with (utf8_run (utf8_next st c) s).
    destruct (Nat.eqb_spec (utf8_next st c) UTF8_ACCEPT) as [E0 | N0].
    + rewrite wseq_write. simpl snd. apply IH.
    + destruct (Nat.eqb_spec (utf8_next st c) UTF8_REJECT) as [E1 | N1].
      * rewrite E1, utf8_run_reject. reflexivity.
      * unfold write_character. rewrite <- (IH (utf8_next st c) cp').
        now destruct (escape_from (utf8_next st c) cp' s false).
Qed.

Lemma dump_escaped_result (s : string) :
  snd (dump_escaped s false)
  = if well_formed_utf8 s then Ok tt else Throw (type_error 316).
Proof. rewrite dump_escaped_snd. apply escape_from_result. Qed.

Lemma dump_string_result (s : string) :
  snd (dump (JString s) false)
  = if well_formed_utf8 s then Ok tt else Throw (type_error 316).
Proof.
  change (dump (JString s) false)
    with (write_character quote >> dump_escaped s false
          >> write_character quote).
  rewrite !snd_wseq. simpl snd at 1.
  rewrite dump_escaped_result.
  now destruct (well_formed_utf8 s).
Qed.

Lemma dump_items_one (d : json -> writer unit) (v : json) :
  dump_items d [v] = d v >> write_character "]".
Proof. reflexivity. Qed.

Lemma dump_items_more (d : json -> writer unit) (v v' : json)
  (vs : list json) :
  dump_items d (v :: v' :: vs)
  = d v >> write_character "," >> dump_items d (v' :: vs).
Proof. reflexivity. Qed.

Lemma dump_items_strings_result (A : list string) :
  forall a,
    snd (dump_items (fun v => dump v false) (map JString (a :: A)))
    = if forallb well_formed_utf8 (a :: A) then Ok tt
      else Throw (type_error 316).
Proof.
  induction A as [ | b A IH ]; intros a.
  - simpl map. rewrite dump_items_one, snd_wseq, dump_string_result.
    simpl forallb. now destruct (well_formed_utf8 a).
  - change (map JString (a :: b :: A))
      with (JString a :: JString b :: map JString A).
    rewrite dump_items_more, !snd_wseq, dump_string_result.
    simpl snd at 1.
    change (forallb well_formed_utf8 (a :: b :: A))
      with (well_formed_utf8 a && forallb well_formed_utf8 (b :: A)).
    destruct (well_formed_utf8 a); [ | reflexivity ].
    exact (IH b).
Qed.

Lemma dump_array_cons (v : json) (vs : list json) :
  dump (JArray (v :: vs)) false
  = write_character "[" >> dump_items (fun x => dump x false) (v :: vs).
Proof. reflexivity. Qed.

(** The array of the arguments is written to its end exactly when
    every argument is well-formed UTF-8. *)
Lemma dump_strings_result (A : list string) :
  snd (dump (json_of_vector A) false)
  = if forallb well_formed_utf8 A then Ok tt else Throw (type_error 316).
Proof.
  destruct A as [ | a A ]; [ reflexivity | ].
  unfold json_of_vector. simpl map. rewrite dump_array_cons, snd_wseq.
  simpl snd at 1. exact (dump_items_strings_result A a).
Qed.

(** *** Reading the array back *)

Lemma parse_value_quote (f : nat) (x : string) :
  parse_value (S f) (String quote x)
  = match scan_string (in_text UTF8_ACCEPT) x with
    | Some (str, rest) => Some (JString str, rest)
    | None => None
    end.
Proof. reflexivity. Qed.

Lemma parse_items_eq (f : nat) (s : string) :
  parse_items (S f) s
  = match parse_value f s with
    | Some (v, rest) =>
        match skip_ws rest with
        | String "," rest' =>
            match parse_items f rest' with
            | Some (vs, rest'') => Some (v :: vs, rest'')
            | None => None
            end
        | String "]" rest' => Some ([v], rest')
        | _ => None
        end
    | None => None
    end.
Proof. reflexivity. Qed.

Lemma parse_value_open_array (f : nat) (x : string) :
  parse_value (S f) (String "[" (String quote x))
  = match parse_items f (String quote x) with
    | Some (items, rest) => Some (JArray items, rest)
    | None => None
    end.
Proof. reflexivity. Qed.

Lemma dump_string_text (s out : string) :
  dump (JString s) false = (out, Ok tt) ->
  exists o, dump_escaped s false = (o, Ok tt)
            /\ out = String quote (o ++ String quote "").
Proof.
  change (dump (JString s) false)
    with (write_character quote >> dump_escaped s false
          >> write_character quote).
  intros H.
  apply wseq_ok in H as (o1 & o2 & H1 & H2 & ->).
  apply wseq_ok in H2 as (o3 & o4 & H3 & H4 & ->).
  injection H1 as <-. injection H4 as <-.
  now exists o3.
Qed.

Lemma parse_value_string (s out rest : string) (f : nat) :
  dump (JString s) false = (out, Ok tt) ->
  parse_value (S f) (out ++ rest) = Some (JString s, rest).
Proof.
  intros H. apply dump_string_text in H as (o & Ho & ->).
  change (String quote (o ++ String quote "") ++ rest)
    with (String quote ((o ++ String quote "") ++ rest)).
  rewrite append_assoc.
  rewrite parse_value_quote.
  change (String quote "" ++ rest) with (String quote rest).
  now rewrite (scan_dump_escaped s o rest Ho).
Qed.

Lemma length_append (a b : string) :
  String.length (a ++ b) = (String.length a + String.length b)%nat.
Proof. induction a as [ | c a IH ]; simpl; [ reflexivity | now rewrite IH ]. Qed.

(** The elements of an array of strings, as written, read back as the
    same strings; the text opens with a quote and is no shorter than
    the array is long. *)
Lemma parse_items_strings (A : list string) :
  forall (a out : string),
    dump_items (fun v => dump v false) (map JString (a :: A)) = (out, Ok tt) ->
    (exists out', out = String quote out')
    /\ (List.length A <= String.length out)%nat
    /\ forall f rest,
         (List.length A + 2 <= f)%nat ->
         parse_items f (out ++ rest) = Some (map JString (a :: A), rest).
Proof.
  induction A as [ | b A IH ]; intros a out H.
  - simpl map in H. rewrite dump_items_one in H.
    apply wseq_ok in H as (o1 & o2 & H1 & H2 & ->). injection H2 as <-.
    split; [ | split ].
    + apply dump_string_text in H1 as (o & _ & ->). now eexists.
    + simpl. lia.
    + intros f rest Hf. destruct f as [ | [ | f ] ]; try (simpl in Hf; lia).
      rewrite parse_items_eq, append_assoc.
      now rewrite (parse_value_string a o1 _ f H1).
  - change (map JString (a :: b :: A))
      with (JString a :: JString b :: map JString A) in H.
    rewrite dump_items_more in H.
    apply wseq_ok in H as (o1 & o2 & H1 & H2 & ->).
    apply wseq_ok in H2 as (o3 & o4 & H3 & H4 & ->). injection H3 as <-.
    destruct (IH b o4 H4) as ((o4' & ->) & Hlen & Hparse).
    split; [ | split ].
    + apply dump_string_text in H1 as (o & _ & ->). now eexists.
    + rewrite !length_append. simpl in *. lia.
    + intros f rest Hf. destruct f as [ | [ | f ] ]; try (simpl in Hf; lia).
      rewrite parse_items_eq, append_assoc.
      rewrite (parse_value_string a o1 _ f H1).
      rewrite append_assoc.
      change (skip_ws (String "," "" ++ String quote o4' ++ rest))
        with (String "," (String quote o4' ++ rest)).
      cbv iota beta.
      rewrite (Hparse (S f) rest) by (simpl in Hf |- *; lia).
      reflexivity.
Qed.

Lemma parse_value_strings (A : list string) (out : string) :
  dump (json_of_vector A) false = (out, Ok tt) ->
  (List.length A <= String.length out)%nat
  /\ forall f rest,
       (List.length A + 2 <= f)%nat ->
       parse_value f (out ++ rest) = Some (json_of_vector A, rest).
Proof.
  destruct A as [ | a A ]; intros H.
  - injection H as <-. split; [ simpl; lia | ].
    intros [ | f ] rest Hf; [ simpl in Hf; lia | reflexivity ].
  - unfold json_of_vector in H. simpl map in H. rewrite dump_array_cons in H.
    apply wseq_ok in H as (o1 & o2 & H1 & H2 & ->). injection H1 as <-.
    destruct (parse_items_strings A a o2 H2) as ((o2' & ->) & Hlen & Hparse).
    split; [ simpl in *; lia | ].
    intros [ | f ] rest Hf; [ simpl in Hf; lia | ].
    change ((String "[" "" ++ String quote o2') ++ rest)
      with (String "[" (String quote (o2' ++ rest))).
    rewrite parse_value_open_array.
    change (String quote (o2' ++ rest)) with (String quote o2' ++ rest).
    rewrite Hparse by (simpl in Hf; lia).
    reflexivity.
Qed.

(** *** The whole record *)

Lemma dump_record (arr : json) :
  dump (JObject [("Hello", JString "World"); ("args", arr)]) false
  = write_characters greeting_head >> dump arr false >> write_character "}".
Proof.
  change (dump (JObject [("Hello", JString "World"); ("args", arr)]) false)
    with (write_character "{"
          >> write_character quote >> dump_escaped "Hello" false
          >> write_characters (String quote ":")
          >> dump (JString "World") false >> write_character ","
          >> write_character quote >> dump_escaped "args" false
          >> write_characters (String quote ":")
          >> dump arr false >> write_character "}").
  now destruct (dump arr false) as [o [[] | e]].
Qed.

Lemma parse_record_text (f : nat) (tail : string) :
  parse_value (S (S (S f))) (greeting_head ++ tail)
  = match
      match parse_value f tail with
      | Some (v, rest) =>
          match skip_ws rest with
          | String "," rest' =>
              parse_members f rest'
                [("Hello", JString "World"); ("args", v)]
          | String "}" rest' =>
              Some ([("Hello", JString "World"); ("args", v)], rest')
          | _ => None
          end
      | None => None
      end
    with
    | Some (members, rest') => Some (JObject members, rest')
    | None => None
    end.
Proof. reflexivity. Qed.

(** The record of well-formed arguments is written to its end, and the
    text reads back as the record, with a line feed after it or
    without. *)
Lemma greeting_text (A : list string) :
  forallb well_formed_utf8 A = true ->
  exists text,
    dump (JObject [("Hello", JString "World"); ("args", json_of_vector A)])
      false = (text, Ok tt)
    /\ parse (text ++ String "010" "")
       = Some (JObject [("Hello", JString "World");
                        ("args", json_of_vector A)])
    /\ parse text
       = Some (JObject [("Hello", JString "World");
                        ("args", json_of_vector A)]).
Proof.
  intros Hwf.
  pose proof (dump_strings_result A) as R. rewrite Hwf in R.
  destruct (dump (json_of_vector A) false) as [o r] eqn:D.
  simpl in R. subst r.
  destruct (parse_value_strings A o D) as [Hlen Hparse].
  exists (greeting_head ++ o ++ String "}" "").
  split; [ | split ].
  - rewrite dump_record, D. reflexivity.
  - unfold parse.
    rewrite append_assoc, !length_append.
    change (String.length greeting_head) with (3 + 21)%nat.
    rewrite <- Nat.add_assoc.
    match goal with
    | |- context [(3 + ?n)%nat] => change (3 + n)%nat with (S (S (S n)))
    end.
    rewrite parse_record_text, append_assoc.
    rewrite Hparse by lia.
    reflexivity.
  - unfold parse.
    rewrite !length_append.
    change (String.length greeting_head) with (3 + 21)%nat.
    rewrite <- Nat.add_assoc.
    match goal with
    | |- context [(3 + ?n)%nat] => change (3 + n)%nat with (S (S (S n)))
    end.
    rewrite parse_record_text.
    rewrite Hparse by lia.
    reflexivity.
Qed.

(** ** The serialized text is one line *)

Lemma has_byte_append (b : ascii) (x y : string) :
  has_byte b (x ++ y) = has_byte b x || has_byte b y.
Proof.
  induction x as [ | c x IH ]; simpl; [ reflexivity | ].
  now rewrite IH, orb_assoc.
Qed.

Lemma has_byte_wseq {A : Type} (b : ascii) (w : writer unit) (k : writer A) :
  has_byte b (fst w) = false -> has_byte b (fst k) = false ->
  has_byte b (fst (w >> k)) = false.
Proof.
  destruct w as [o [[] | e]]; simpl; intros Hw Hk; [ | exact Hw ].
  now rewrite has_byte_append, Hw, Hk.
Qed.

Lemma escaped_ascii_one_line (c : ascii) :
  utf8_next UTF8_ACCEPT c = UTF8_ACCEPT ->
  has_byte "010" (escaped (lead_codepoint c) c false) = false.
Proof.
  destruct c as [[] [] [] [] [] [] [] []]; intros H; vm_compute in H;
    try discriminate H; reflexivity.
Qed.

Lemma newline_inside_rejected (st : nat) (cp : N) :
  st <> UTF8_ACCEPT -> cp_inv st cp -> utf8_next st "010" = UTF8_REJECT.
Proof.
  intros Hst Hinv.
  destruct st as [|[|[|[|[|[|[|[|[|st]]]]]]]]]; try reflexivity;
    [ now contradiction Hst | contradiction Hinv ].
Qed.

Lemma escape_from_one_line (s : string) :
  forall (st : nat) (cp : N),
    cp_inv st cp ->
    has_byte "010" (fst (escape_from st cp s false)) = false.
Proof.
  induction s as [ | c s IH ]; intros st cp Hinv.
  - rewrite escape_from_nil. now destruct (st =? UTF8_ACCEPT)%nat.
  - rewrite escape_from_cons.
    pose proof (decode_state st cp c) as Hst'.
    pose proof (decode_inv st cp c Hinv) as Hstep.
    destruct (decode st cp c) as [st' cp'] eqn:D. simpl in Hst', Hstep.
    subst st'.
    destruct (Nat.eqb_spec (utf8_next st c) UTF8_ACCEPT) as [E0 | N0].
    + apply has_byte_wseq; [ | rewrite E0; now apply IH ].
      unfold write_characters, fst.
      destruct (Nat.eq_dec st UTF8_ACCEPT) as [-> | Hst].
      * assert (cp' = lead_codepoint c) as ->
          by (rewrite <- (decode_snd_accept cp c), D; reflexivity).
        now apply escaped_ascii_one_line.
      * destruct Hstep as [_ Hbig]; [ rewrite E0; discriminate | ].
        rewrite escaped_large by (apply Hbig; assumption).
        simpl. rewrite orb_false_r.
        destruct (Ascii.eqb_spec c "010") as [-> | _]; [ | reflexivity ].
        rewrite (newline_inside_rejected st cp Hst Hinv) in E0.
        discriminate E0.
    + destruct (Nat.eqb_spec (utf8_next st c) UTF8_REJECT) as [E1 | N1];
        [ reflexivity | ].
      destruct (Hstep N1) as [Hinv' _].
      apply has_byte_wseq; [ | now apply IH ].
      simpl. rewrite orb_false_r.
      destruct (Ascii.eqb_spec c "010") as [-> | _]; [ | reflexivity ].
      destruct (Nat.eq_dec st UTF8_ACCEPT) as [-> | Hst].
      * now contradiction N0.
      * now rewrite (newline_inside_rejected st cp Hst Hinv) in N1.
Qed.

Lemma dump_escaped_one_line (s : string) :
  has_byte "010" (fst (dump_escaped s false)) = false.
Proof.
  destruct (dump_escaped_part s false) as (tail & Ht).
  pose proof (escape_from_one_line s UTF8_ACCEPT 0 I) as H.
  rewrite Ht, has_byte_append in H.
  now apply orb_false_elim in H.
Qed.

Lemma dump_items_one_line (d : json -> writer unit) (vs : list json) :
  Forall (fun v => has_byte "010" (fst (d v)) = false) vs ->
  has_byte "010" (fst (dump_items d vs)) = false.
Proof.
  induction 1 as [ | v vs Hv Hvs IH ]; [ reflexivity | ].
  destruct vs as [ | v' vs ].
  - rewrite dump_items_one. now apply has_byte_wseq.
  - rewrite dump_items_more. repeat apply has_byte_wseq; auto.
Qed.

Lemma dump_members_one_line (d : json -> writer unit)
  (dk : string -> writer unit) (ms : list (string * json)) :
  (forall k, has_byte "010" (fst (dk k)) = false) ->
  Forall (fun kv => has_byte "010" (fst (d (snd kv))) = false) ms ->
  has_byte "010" (fst (dump_members d dk ms)) = false.
Proof.
  intros Hk.
  induction 1 as [ | [k v] ms Hv Hms IH ]; [ reflexivity | ].
  simpl in Hv.
  destruct ms as [ | kv' ms ].
  - simpl dump_members. repeat apply has_byte_wseq; auto.
  - change (dump_members d dk ((k, v) :: kv' :: ms))
      with (write_character quote >> dk k
            >> write_characters (String quote ":")
            >> d v >> write_character ","
            >> dump_members d dk (kv' :: ms)).
    repeat apply has_byte_wseq; auto.
Qed.

(** Whatever the value, what the serializer writes holds no newline,
    also when it stops on an exception. *)
Lemma dump_one_line (j : json) : has_byte "010" (fst (dump j false)) = false.
Proof.
  induction j as [ | [] | s | items IH | members IH ] using json_ind;
    try reflexivity.
  - change (dump (JString s) false)
      with (write_character quote >> dump_escaped s false
            >> write_character quote).
    repeat apply has_byte_wseq; try reflexivity.
    apply dump_escaped_one_line.
  - destruct items as [ | v vs ]; [ reflexivity | ].
    rewrite dump_array_cons.
    apply has_byte_wseq; [ reflexivity | ].
    now apply dump_items_one_line.
  - destruct members as [ | kv ms ]; [ reflexivity | ].
    change (dump (JObject (kv :: ms)) false)
      with (write_character "{"
            >> dump_members (fun v => dump v false)
                 (fun k => dump_escaped k false) (kv :: ms)).
    apply has_byte_wseq; [ reflexivity | ].
    apply dump_members_one_line; [ | exact IH ].
    intros k. apply dump_escaped_one_line.
Qed.

(** ** The stream and its buffer *)

Lemma ostream_write_app (a b : string) :
  forall os, ostream_write (a ++ b) os = ostream_write b (ostream_write a os).
Proof. induction a as [ | c a IH ]; intros os; [ reflexivity | apply IH ]. Qed.

(** On a device that takes the text nothing is lost: what the device
    has taken and what the buffer holds make up all that was written. *)
Lemma ostream_put_accepting (c : ascii) (os : ostream) :
  dev os = accepting -> good os = true -> sigpipe os = false ->
  dev (ostream_put c os) = accepting
  /\ good (ostream_put c os) = true
  /\ sigpipe (ostream_put c os) = false
  /\ written (ostream_put c os) ++ buffered (ostream_put c os)
     = (written os ++ buffered os) ++ String c "".
Proof.
  destruct os as [d r w b g k]. cbn [dev good sigpipe written buffered].
  intros -> -> ->. unfold ostream_put. cbn [dev good sigpipe bufsize buffered andb negb].
  destruct (String.length b <? r)%nat.
  - cbn. repeat split. now rewrite append_assoc.
  - destruct b as [ | x b ]; cbn; repeat split.
    now rewrite append_empty_r.
Qed.

Lemma ostream_write_accepting (s : string) :
  forall os,
    dev os = accepting -> good os = true -> sigpipe os = false ->
    dev (ostream_write s os) = accepting
    /\ good (ostream_write s os) = true
    /\ sigpipe (ostream_write s os) = false
    /\ written (ostream_write s os) ++ buffered (ostream_write s os)
       = (written os ++ buffered os) ++ s.
Proof.
  induction s as [ | c s IH ]; intros os Hd Hg Hk.
  - cbn [ostream_write]. now rewrite append_empty_r.
  - cbn [ostream_write].
    destruct (ostream_put_accepting c os Hd Hg Hk) as (Hd' & Hg' & Hk' & E).
    destruct (IH _ Hd' Hg' Hk') as (Hd2 & Hg2 & Hk2 & E2).
    repeat split; try assumption.
    rewrite E2, E, append_assoc. reflexivity.
Qed.

Lemma flush_accepting (os : ostream) :
  dev os = accepting -> sigpipe os = false ->
  written (flush os) = written os ++ buffered os
  /\ sigpipe (flush os) = false.
Proof.
  destruct os as [d r w b g k]. cbn [dev sigpipe written buffered].
  intros -> ->. unfold flush. cbn [dev buffered].
  destruct b; cbn; [ now rewrite append_empty_r | now split ].
Qed.

(** On a device that fails every write nothing reaches the device, and
    no signal is raised. *)
Lemma flush_refusing (os : ostream) :
  dev os = refusing -> sigpipe os = false ->
  dev (flush os) = refusing /\ sigpipe (flush os) = false
  /\ written (flush os) = written os.
Proof.
  destruct os as [d r w b g k]. cbn [dev sigpipe written].
  intros -> ->. unfold flush. cbn [dev buffered].
  destruct b; cbn; now repeat split.
Qed.

Lemma ostream_put_refusing (c : ascii) (os : ostream) :
  dev os = refusing -> sigpipe os = false ->
  dev (ostream_put c os) = refusing /\ sigpipe (ostream_put c os) = false
  /\ written (ostream_put c os) = written os.
Proof.
  intros Hd Hk. unfold ostream_put.
  destruct (good os && negb (sigpipe os)); [ | now repeat split ].
  destruct (String.length (buffered os) <? bufsize os)%nat.
  - rewrite Hk. destruct (good os); cbn; now repeat split.
  - destruct (flush_refusing os Hd Hk) as (Hd' & Hk' & Hw').
    rewrite Hk'. destruct (good (flush os)); cbn; now repeat split.
Qed.

Lemma ostream_write_refusing (s : string) :
  forall os,
    dev os = refusing -> sigpipe os = false ->
    dev (ostream_write s os) = refusing
    /\ sigpipe (ostream_write s os) = false
    /\ written (ostream_write s os) = written os.
Proof.
  induction s as [ | c s IH ]; intros os Hd Hk; [ now repeat split | ].
  cbn [ostream_write].
  destruct (ostream_put_refusing c os Hd Hk) as (Hd' & Hk' & Hw').
  destruct (IH _ Hd' Hk') as (Hd2 & Hk2 & Hw2).
  repeat split; congruence.
Qed.

(** On a pipe nobody reads nothing reaches the device either; as long
    as no signal was raised, all that was written is in the buffer. *)
Lemma ostream_put_broken_pipe (c : ascii) (os : ostream) :
  dev os = broken_pipe -> good os = true ->
  dev (ostream_put c os) = broken_pipe
  /\ good (ostream_put c os) = true
  /\ written (ostream_put c os) = written os
  /\ (sigpipe (ostream_put c os) = false ->
      buffered (ostream_put c os) = buffered os ++ String c "").
Proof.
  destruct os as [d r w b g k]. cbn [dev good written buffered].
  intros -> ->. unfold ostream_put. cbn [dev good sigpipe bufsize buffered andb].
  destruct k; cbn [negb]; [ repeat split; discriminate | ].
  destruct (String.length b <? r)%nat; [ now repeat split | ].
  destruct b as [ | x b ]; cbn; repeat split; discriminate.
Qed.

Lemma ostream_write_broken_pipe (s : string) :
  forall os,
    dev os = broken_pipe -> good os = true ->
    dev (ostream_write s os) = broken_pipe
    /\ good (ostream_write s os) = true
    /\ written (ostream_write s os) = written os
    /\ (sigpipe (ostream_write s os) = false ->
        buffered (ostream_write s os) = buffered os ++ s).
Proof.
  induction s as [ | c s IH ]; intros os Hd Hg.
  - cbn [ostream_write]. repeat split; try assumption.
    intros _. now rewrite append_empty_r.
  - cbn [ostream_write].
    destruct (ostream_put_broken_pipe c os Hd Hg) as (Hd' & Hg' & Hw' & Hb').
    destruct (IH _ Hd' Hg') as (Hd2 & Hg2 & Hw2 & Hb2).
    repeat split; try congruence.
    intros Hk. rewrite (Hb2 Hk).
    destruct (sigpipe (ostream_put c os)) eqn:K.
    + exfalso. clear - K Hk.
      assert (F : forall t o, sigpipe o = true ->
                              sigpipe (ostream_write t o) = true).
      { induction t as [ | x t IHt ]; intros o Ho; [ exact Ho | ].
        cbn [ostream_write]. apply IHt. unfold ostream_put.
        rewrite Ho, andb_false_r. exact Ho. }
      rewrite (F _ _ K) in Hk. discriminate Hk.
    + rewrite (Hb' eq_refl), append_assoc. reflexivity.
Qed.

Lemma flush_broken_pipe (os : ostream) (c : ascii) (b : string) :
  dev os = broken_pipe -> buffered os = String c b ->
  sigpipe (flush os) = true /\ written (flush os) = written os.
Proof.
  destruct os as [d r w b' g k]. cbn [dev buffered written].
  intros -> ->. now split.
Qed.

(** ** The two entry points *)

(** The program of hello.cpp is the program of main.cpp with the
    inline construction in the place of [hello::greet]. *)
Lemma hello_cpp_main_unfold (argv : list string) :
  hello_cpp.main argv = main_cpp.main hello_cpp.greeting argv.
Proof. reflexivity. Qed.

(** What [main] does to the stream, by what the builder and the
    serializer do. *)
Lemma main_steps (greet : list string -> result json) (argv : list string)
  (os : ostream) :
  main_cpp.main greet argv os
  = match greet argv with
    | Throw e => (Throw e, os)
    | Ok j =>
        match snd (dump j false) with
        | Ok _ =>
            (Ok 0%Z,
             ostream_write (fst (dump j false) ++ String "010" "") os)
        | Throw e => (Throw e, ostream_write (fst (dump j false)) os)
        end
    end.
Proof.
  unfold main_cpp.main, main_cpp.collect, pbind, plift, put_json, put_string,
    pret.
  destruct (greet argv) as [j | e]; [ | reflexivity ].
  destruct (dump j false) as [text [[] | e]]; cbn [fst snd]; [ | reflexivity ].
  now rewrite ostream_write_app.
Qed.

(** A run in front of a device that takes the text: all of it arrives
    when [main] returns, an initial part of it when an exception ends
    the process. *)
Lemma run_accepting (greet : list string -> result json)
  (argv : list string) (room : nat) :
  match greet argv with
  | Throw e =>
      run (main_cpp.main greet argv) accepting room
      = mk_outcome "" (terminated e)
  | Ok j =>
      match snd (dump j false) with
      | Ok _ =>
          run (main_cpp.main greet argv) accepting room
          = mk_outcome (fst (dump j false) ++ String "010" "") (exited 0)
      | Throw e =>
          status (run (main_cpp.main greet argv) accepting room)
          = terminated e
          /\ exists tail,
               fst (dump j false)
               = stdout (run (main_cpp.main greet argv) accepting room)
                 ++ tail
      end
  end.
Proof.
  unfold run. rewrite main_steps.
  destruct (greet argv) as [j | e]; [ | reflexivity ].
  destruct (snd (dump j false)) as [[] | e].
  - destruct (ostream_write_accepting
                (fst (dump j false) ++ String "010" "")
                (mk_ostream accepting room "" "" true false)
                eq_refl eq_refl eq_refl) as (Hd & _ & Hk & E).
    rewrite Hk.
    destruct (flush_accepting _ Hd Hk) as (Hw & Hk').
    cbv zeta. rewrite Hk', Hw, E. reflexivity.
  - destruct (ostream_write_accepting (fst (dump j false))
                (mk_ostream accepting room "" "" true false)
                eq_refl eq_refl eq_refl) as (_ & _ & Hk & E).
    rewrite Hk. cbn [status stdout]. split; [ reflexivity | ].
    eexists. symmetry. exact E.
Qed.

(** A run in front of a device that fails every write: nothing
    arrives, and the process ends as the builder and the serializer
    make it end. *)
Lemma run_refusing (greet : list string -> result json)
  (argv : list string) (room : nat) :
  run (main_cpp.main greet argv) refusing room
  = mk_outcome ""
      match greet argv with
      | Throw e => terminated e
      | Ok j =>
          match snd (dump j false) with
          | Ok _ => exited 0
          | Throw e => terminated e
          end
      end.
Proof.
  unfold run. rewrite main_steps.
  destruct (greet argv) as [j | e]; [ | reflexivity ].
  destruct (snd (dump j false)) as [[] | e].
  - destruct (ostream_write_refusing
                (fst (dump j false) ++ String "010" "")
                (mk_ostream refusing room "" "" true false)
                eq_refl eq_refl) as (Hd & Hk & Hw).
    rewrite Hk.
    destruct (flush_refusing _ Hd Hk) as (_ & Hk' & Hw').
    cbv zeta. rewrite Hk', Hw', Hw. reflexivity.
  - destruct (ostream_write_refusing (fst (dump j false))
                (mk_ostream refusing room "" "" true false)
                eq_refl eq_refl) as (_ & Hk & Hw).
    rewrite Hk, Hw. reflexivity.
Qed.

(** A run in front of a pipe nobody reads: nothing arrives; when the
    serializer finishes, the process is ended by SIGPIPE, at the latest
    when the buffer is written out on exit; when it throws, by SIGPIPE
    if the buffer was written out before, by [std::terminate] if not. *)
Lemma run_broken_pipe (greet : list string -> result json)
  (argv : list string) (room : nat) :
  stdout (run (main_cpp.main greet argv) broken_pipe room) = ""
  /\ match greet argv with
     | Throw e =>
         status (run (main_cpp.main greet argv) broken_pipe room)
         = terminated e
     | Ok j =>
         match snd (dump j false) with
         | Ok _ =>
             status (run (main_cpp.main greet argv) broken_pipe room)
             = killed_by_sigpipe
         | Throw e =>
             status (run (main_cpp.main greet argv) broken_pipe room)
             = terminated e
             \/ status (run (main_cpp.main greet argv) broken_pipe room)
                = killed_by_sigpipe
         end
     end.
Proof.
  unfold run. rewrite main_steps.
  destruct (greet argv) as [j | e]; [ | split; reflexivity ].
  destruct (snd (dump j false)) as [[] | e].
  - destruct (ostream_write_broken_pipe
                (fst (dump j false) ++ String "010" "")
                (mk_ostream broken_pipe room "" "" true false)
                eq_refl eq_refl) as (Hd & _ & Hw & Hb).
    destruct (sigpipe (ostream_write _ _)) eqn:K;
      [ cbn [stdout status]; rewrite Hw; now split | ].
    specialize (Hb eq_refl). cbn [buffered append] in Hb.
    destruct (fst (dump j false)) as [ | c t ];
      cbn [append] in Hb;
      destruct (flush_broken_pipe _ _ _ Hd Hb) as (Hk' & Hw');
      cbv zeta; rewrite Hk', Hw', Hw; now split.
  - destruct (ostream_write_broken_pipe (fst (dump j false))
                (mk_ostream broken_pipe room "" "" true false)
                eq_refl eq_refl) as (_ & _ & Hw & _).
    destruct (sigpipe (ostream_write _ _)); cbn [stdout status];
      rewrite Hw; split; auto.
Qed.

(** How [main] ends, by what the builder and the serializer do and by
    the device. *)
Lemma run_status (greet : list string -> result json) (argv : list string)
  (d : device) (room : nat) :
  match greet argv with
  | Throw e => status (run (main_cpp.main greet argv) d room) = terminated e
  | Ok j =>
      match snd (dump j false) with
      | Ok _ =>
          status (run (main_cpp.main greet argv) d room)
          = match d with
            | broken_pipe => killed_by_sigpipe
            | _ => exited 0
            end
      | Throw e =>
          status (run (main_cpp.main greet argv) d room) = terminated e
          \/ (d = broken_pipe
              /\ status (run (main_cpp.main greet argv) d room)
                 = killed_by_sigpipe)
      end
  end.
Proof.
  pose proof (run_accepting greet argv room) as Ha.
  pose proof (run_refusing greet argv room) as Hr.
  pose proof (run_broken_pipe greet argv room) as [_ Hb].
  destruct (greet argv) as [j | e].
  - destruct (snd (dump j false)) as [[] | e]; destruct d;
      try rewrite Ha; try rewrite Hr; try rewrite Hb; auto.
    + left. apply Ha.
    + destruct Hb as [Hb | Hb]; auto.
  - destruct d; try rewrite Ha; try rewrite Hr; try rewrite Hb; reflexivity.
Qed.

Lemma dump_greeting_result (A : list string) :
  snd (dump (JObject [("Hello", JString "World"); ("args", json_of_vector A)])
         false)
  = if forallb well_formed_utf8 A then Ok tt else Throw (type_error 316).
Proof.
  rewrite dump_record, !snd_wseq, dump_strings_result. simpl snd at 1.
  now destruct (forallb well_formed_utf8 A).
Qed.

(** How the program of hello.cpp ends, by its arguments and the
    device. *)
Lemma run_hello_status (argv : list string) (d : device) (room : nat) :
  if forallb well_formed_utf8 argv
  then status (run (hello_cpp.main argv) d room)
       = match d with
         | broken_pipe => killed_by_sigpipe
         | _ => exited 0
         end
  else status (run (hello_cpp.main argv) d room) = terminated (type_error 316)
       \/ (d = broken_pipe
           /\ status (run (hello_cpp.main argv) d room) = killed_by_sigpipe).
Proof.
  rewrite hello_cpp_main_unfold.
  pose proof (run_status hello_cpp.greeting argv d room) as H.
  rewrite greeting_record, dump_greeting_result in H.
  now destruct (forallb well_formed_utf8 argv).
Qed.

Lemma run_hello_text (argv : list string) (text : string) (room : nat) :
  dump (JObject [("Hello", JString "World"); ("args", json_of_vector argv)])
    false = (text, Ok tt) ->
  run (hello_cpp.main argv) accepting room
  = mk_outcome (text ++ String "010" "") (exited 0)
  /\ has_byte "010" text = false.
Proof.
  intros Hdump. split.
  - rewrite hello_cpp_main_unfold.
    pose proof (run_accepting hello_cpp.greeting argv room) as Ha.
    rewrite greeting_record, Hdump in Ha. exact Ha.
  - pose proof (dump_one_line
                  (JObject [("Hello", JString "World");
                            ("args", json_of_vector argv)])) as H.
    now rewrite Hdump in H.
Qed.

Lemma run_hello_well_formed (argv : list string) (room : nat) :
  forallb well_formed_utf8 argv = true ->
  exists text,
    run (hello_cpp.main argv) accepting room
    = mk_outcome (text ++ String "010" "") (exited 0)
    /\ has_byte "010" text = false
    /\ parse (text ++ String "010" "")
       = Some (JObject [("Hello", JString "World");
                        ("args", json_of_vector argv)])
    /\ parse text
       = Some (JObject [("Hello", JString "World");
                        ("args", json_of_vector argv)]).
Proof.
  intros Hwf.
  destruct (greeting_text argv Hwf) as (text & Hdump & Hparse & Hparse').
  exists text.
  destruct (run_hello_text argv text room Hdump) as [Hrun Hline].
  now repeat split.
Qed.

(** Every initial part of a text all of whose initial parts satisfy a
    test satisfies it, with all its initial parts. *)
Lemma forallb_map_comp {A B : Type} (f : B -> bool) (g : A -> B)
  (l : list A) :
  forallb f (map g l) = forallb (fun x => f (g x)) l.
Proof. induction l as [ | a l IH ]; simpl; [ reflexivity | now rewrite IH ]. Qed.

Lemma prefixes_part (t tail : string) :
  forall f : string -> bool,
    forallb f (prefixes (t ++ tail)) = true ->
    forallb f (prefixes t) = true.
Proof.
  induction t as [ | c t IH ]; intros f H.
  - cbn [append] in H. cbn [prefixes forallb].
    destruct tail; cbn [prefixes forallb] in H;
      apply andb_prop in H as [H _]; now rewrite H.
  - cbn [append prefixes forallb] in *.
    apply andb_prop in H as [H0 H]. rewrite H0. cbn [andb].
    rewrite forallb_map_comp in *. now apply IH.
Qed.

(** What reaches the device when the program of hello.cpp is ended by
    an exception is an initial part of what the serializer handed
    over. *)
Lemma run_hello_part (argv : list string) (room : nat) :
  forallb well_formed_utf8 argv = false ->
  exists tail,
    fst (dump (JObject [("Hello", JString "World");
                        ("args", json_of_vector argv)]) false)
    = stdout (run (hello_cpp.main argv) accepting room) ++ tail.
Proof.
  intros Hwf. rewrite hello_cpp_main_unfold.
  pose proof (run_accepting hello_cpp.greeting argv room) as Ha.
  rewrite greeting_record, dump_greeting_result, Hwf in Ha.
  apply Ha.
Qed.

Lemma prefixes_self (t : string) :
  forall f : string -> bool, forallb f (prefixes t) = true -> f t = true.
Proof.
  induction t as [ | c t IH ]; intros f H; cbn [prefixes forallb] in H.
  - now apply andb_prop in H.
  - apply andb_prop in H as [_ H]. rewrite forallb_map_comp in H.
    exact (IH (fun x => f (String c x)) H).
Qed.

Lemma has_byte_part (b : ascii) (t tail : string) :
  has_byte b (t ++ tail) = false -> has_byte b t = false.
Proof.
  rewrite has_byte_append. intros H. now apply orb_false_elim in H.
Qed.

(** C6: the entry point of main.cpp hands the arguments as they are to
    the builder; when the builder returns a record and the serializer
    writes it to its end, standard output receives the serialized text,
    which holds no line feed, then one line feed, and the process exits
    with code 0.  The entry point of hello.cpp does the same with its
    inline builder when its arguments are well-formed UTF-8: its output
    is one line that reads back as the mapping of "Hello" to "World" and
    of "args" to the arguments; otherwise it does not succeed. *)
Theorem entry_point_writes_record (greet : list string -> result json)
  (argv : list string) (j : json) (text : string) (room : nat) :
  greet argv = Ok j ->
  dump j false = (text, Ok tt) ->
  main_cpp.collect argv = argv
  /\ hello_cpp.collect argv = argv
  /\ run (main_cpp.main greet argv) accepting room
     = mk_outcome (text ++ String "010" "") (exited 0)
  /\ has_byte "010" text = false
  /\ (if forallb well_formed_utf8 argv
      then exists record,
             run (hello_cpp.main argv) accepting room
             = mk_outcome (record ++ String "010" "") (exited 0)
             /\ has_byte "010" record = false
             /\ parse record
                = Some (JObject [("Hello", JString "World");
                                 ("args", JArray (map JString argv))])
      else status (run (hello_cpp.main argv) accepting room)
           = terminated (type_error 316)).
Proof.
  intros Hj Hdump.
  split; [ reflexivity | ]. split; [ reflexivity | ].
  split; [ | split ].
  - pose proof (run_accepting greet argv room) as Ha.
    rewrite Hj, Hdump in Ha. exact Ha.
  - pose proof (dump_one_line j) as H. now rewrite Hdump in H.
  - destruct (forallb well_formed_utf8 argv) eqn:Hwf.
    + destruct (run_hello_well_formed argv room Hwf)
        as (record & Hrun & Hline & _ & Hparse).
      exists record. now repeat split.
    + pose proof (run_hello_status argv accepting room) as H.
      rewrite Hwf in H. destruct H as [H | [H _]]; [ exact H | discriminate ].
Qed.

Lemma entry_point_writes_record_witness :
  main_cpp.collect ["prog"; "foo"] = ["prog"; "foo"]
  /\ hello_cpp.collect ["prog"; "foo"] = ["prog"; "foo"]
  /\ run (main_cpp.main hello_cpp.greeting ["prog"; "foo"]) accepting 4096
     = mk_outcome
         ((greeting_head ++ "[" ++ quoted "prog" ++ "," ++ quoted "foo" ++ "]}")
          ++ String "010" "") (exited 0)
  /\ has_byte "010"
       (greeting_head ++ "[" ++ quoted "prog" ++ "," ++ quoted "foo" ++ "]}")
     = false
  /\ exists record,
       run (hello_cpp.main ["prog"; "foo"]) accepting 4096
       = mk_outcome (record ++ String "010" "") (exited 0)
       /\ has_byte "010" record = false
       /\ parse record
          = Some (JObject [("Hello", JString "World");
                           ("args", JArray [JString "prog"; JString "foo"])]).
Proof.
  apply (entry_point_writes_record hello_cpp.greeting ["prog"; "foo"]
           (JObject [("Hello", JString "World");
                     ("args", JArray [JString "prog"; JString "foo"])])
           (greeting_head ++ "[" ++ quoted "prog" ++ "," ++ quoted "foo" ++ "]}")
           4096).
  - reflexivity.
  - reflexivity.
Defined.

(** C7, as the code has it: invoked with its name alone, a name that is
    well-formed UTF-8, and a standard output that takes the text, the
    program of hello.cpp exits with code 0 after writing one line that
    reads back as an object whose "Hello" member is the string "World"
    and whose "args" member is an array with the name as element 0. *)
Theorem program_name_only (prog : string) (room : nat) :
  well_formed_utf8 prog = true ->
  exists text j arr,
    run (hello_cpp.main [prog]) accepting room
    = mk_outcome (text ++ String "010" "") (exited 0)
    /\ has_byte "010" text = false
    /\ parse (text ++ String "010" "") = Some j
    /\ at_key j "Hello" = Ok (JString "World")
    /\ at_key j "args" = Ok arr
    /\ at_index arr 0 = Ok (JString prog).
Proof.
  intros Hwf.
  destruct (run_hello_well_formed [prog] room)
    as (text & Hrun & Hline & Hparse & _).
  { simpl. now rewrite Hwf. }
  exists text, (JObject [("Hello", JString "World");
                         ("args", json_of_vector [prog])]),
         (json_of_vector [prog]).
  now repeat split.
Qed.

Lemma program_name_only_witness :
  exists text j arr,
    run (hello_cpp.main ["./hello"]) accepting 4096
    = mk_outcome (text ++ String "010" "") (exited 0)
    /\ has_byte "010" text = false
    /\ parse (text ++ String "010" "") = Some j
    /\ at_key j "Hello" = Ok (JString "World")
    /\ at_key j "args" = Ok arr
    /\ at_index arr 0 = Ok (JString "./hello").
Proof.
  apply (program_name_only "./hello" 4096). reflexivity.
Defined.


(** The text handed to the stream when one argument is ill-formed holds
    no line feed, and no initial part of what reaches the device is JSON
    text, whatever the size of the buffer. *)
Lemma ill_formed_run (argv : list string) (room : nat) :
  forallb well_formed_utf8 argv = false ->
  forallb unreadable
    (prefixes (fst (dump (JObject [("Hello", JString "World");
                                   ("args", json_of_vector argv)]) false)))
  = true ->
  status (run (hello_cpp.main argv) accepting room)
  = terminated (type_error 316)
  /\ has_byte "010" (stdout (run (hello_cpp.main argv) accepting room)) = false
  /\ forallb unreadable
       (prefixes (stdout (run (hello_cpp.main argv) accepting room))) = true
  /\ parse (stdout (run (hello_cpp.main argv) accepting room)) = None.
Proof.
  intros Hwf Hun.
  destruct (run_hello_part argv room Hwf) as (tail & Ht).
  assert (Hp : forallb unreadable
                 (prefixes (stdout (run (hello_cpp.main argv) accepting room)))
               = true).
  { apply (prefixes_part _ tail). now rewrite <- Ht. }
  split; [ | split; [ | split ] ].
  - pose proof (run_hello_status argv accepting room) as H.
    rewrite Hwf in H. destruct H as [H | [H _]]; [ exact H | discriminate ].
  - apply (has_byte_part _ _ tail). rewrite <- Ht. apply dump_one_line.
  - exact Hp.
  - apply prefixes_self in Hp. unfold unreadable in Hp.
    now destruct (parse (stdout (run (hello_cpp.main argv) accepting room))).
Qed.

(** A program name in Latin-1, "h", byte 233, "llo": the serializer
    throws error 316 inside the name, nothing catches it, no line is
    completed, and no initial part of what reaches the device is JSON
    text, whatever the size of the buffer; with the buffer of 4096
    bytes nothing reaches the device at all.  And with a well-formed
    name on a standard output that fails every write, no line is output
    either. *)
Lemma program_name_not_utf8 :
  well_formed_utf8 (String "h" (String "233" "llo")) = false
  /\ (forall room,
        status (run (hello_cpp.main [String "h" (String "233" "llo")])
                  accepting room)
        = terminated (type_error 316))
  /\ (forall room,
        has_byte "010"
          (stdout (run (hello_cpp.main [String "h" (String "233" "llo")])
                     accepting room)) = false)
  /\ (forall room,
        forallb unreadable
          (prefixes
             (stdout (run (hello_cpp.main [String "h" (String "233" "llo")])
                        accepting room))) = true)
  /\ run (hello_cpp.main [String "h" (String "233" "llo")]) accepting 4096
     = mk_outcome "" (terminated (type_error 316))
  /\ (forall room, stdout (run (hello_cpp.main ["./hello"]) refusing room) = "").
Proof.
  assert (H : forall room,
             _ /\ _ /\ _ /\ _) by
    (intros room;
     apply (ill_formed_run [String "h" (String "233" "llo")] room);
     vm_compute; reflexivity).
  split; [ reflexivity | ].
  split; [ intros room; apply (H room) | ].
  split; [ intros room; apply (H room) | ].
  split; [ intros room; apply (H room) | ].
  split; [ vm_compute; reflexivity | ].
  intros room. rewrite hello_cpp_main_unfold, run_refusing. reflexivity.
Qed.



(** C9, as the code has it: when every argument is well-formed UTF-8
    and standard output takes the text, all of the output of the
    program of hello.cpp reads back as one object, the greeting record,
    whose keys are "Hello" and "args" and no other. *)
Theorem output_reads_back (argv : list string) (room : nat) :
  forallb well_formed_utf8 argv = true ->
  exists j,
    parse (stdout (run (hello_cpp.main argv) accepting room)) = Some j
    /\ is_object j = true
    /\ keys j = ["Hello"; "args"]
    /\ (forall k, contains j k = true <-> k = "Hello" \/ k = "args")
    /\ j = JObject [("Hello", JString "World");
                    ("args", JArray (map JString argv))].
Proof.
  intros Hwf.
  destruct (run_hello_well_formed argv room Hwf)
    as (text & Hrun & _ & Hparse & _).
  eexists. rewrite Hrun. simpl stdout.
  split; [ exact Hparse | ].
  repeat split.
  - unfold contains, map_find.
    destruct (String.eqb k "Hello") eqn:E1.
    + apply String.eqb_eq in E1. now left.
    + destruct (String.eqb k "args") eqn:E2; [ | discriminate ].
      apply String.eqb_eq in E2. now right.
  - intros [-> | ->]; reflexivity.
Qed.

Lemma output_reads_back_witness :
  exists j,
    parse (stdout (run (hello_cpp.main ["prog"; "foo"; "bar"]) accepting 4096))
    = Some j
    /\ is_object j = true
    /\ keys j = ["Hello"; "args"]
    /\ (forall k, contains j k = true <-> k = "Hello" \/ k = "args")
    /\ j = JObject [("Hello", JString "World");
                    ("args", JArray (map JString ["prog"; "foo"; "bar"]))].
Proof.
  apply (output_reads_back ["prog"; "foo"; "bar"] 4096). reflexivity.
Defined.

(** An argument of the two bytes 192 and 175, an overlong form that is
    not UTF-8: the program is ended by [std::terminate], and neither
    what reaches the device nor any initial part of it is JSON text,
    whatever the size of the buffer.  And with well-formed arguments on
    a standard output that fails every write, the output is empty,
    which is no JSON text. *)
Lemma overlong_argument_unreadable :
  (forall room,
     status (run (hello_cpp.main ["prog"; String "192" (String "175" "")])
               accepting room)
     = terminated (type_error 316))
  /\ (forall room,
        parse (stdout (run (hello_cpp.main
                              ["prog"; String "192" (String "175" "")])
                         accepting room)) = None)
  /\ (forall room,
        forallb unreadable
          (prefixes
             (stdout (run (hello_cpp.main
                             ["prog"; String "192" (String "175" "")])
                        accepting room))) = true)
  /\ (forall room,
        parse (stdout (run (hello_cpp.main ["prog"; "foo"]) refusing room))
        = None).
Proof.
  assert (H : forall room,
             _ /\ _ /\ _ /\ _) by
    (intros room;
     apply (ill_formed_run ["prog"; String "192" (String "175" "")] room);
     vm_compute; reflexivity).
  split; [ intros room; apply (H room) | ].
  split; [ intros room; apply (H room) | ].
  split; [ intros room; apply (H room) | ].
  intros room. rewrite hello_cpp_main_unfold, run_refusing. reflexivity.
Qed.

(** C10: with [hello::greet] as the specification describes it, the
    program of hello.cpp and the program of main.cpp do the same to the
    output stream, return or throw alike, and so end alike on every
    device and with every buffer. *)
Theorem entry_points_equivalent (argv : list string) :
  (forall os, hello_cpp.main argv os = main_cpp.main hello.greet argv os)
  /\ (forall d room, run (hello_cpp.main argv) d room
                     = run (main_cpp.main hello.greet argv) d room)
  /\ hello_cpp.greeting argv = hello.greet argv.
Proof.
  assert (H : hello_cpp.greeting argv = hello.greet argv)
    by (rewrite greeting_record; reflexivity).
  assert (M : forall os,
             hello_cpp.main argv os = main_cpp.main hello.greet argv os).
  { intros os. rewrite hello_cpp_main_unfold.
    unfold main_cpp.main, main_cpp.collect. now rewrite H. }
  split; [ exact M | split ]; [ | exact H ].
  intros d room. unfold run. now rewrite M.
Qed.

(** ** The test case and some concrete runs *)

Example test_passes_on_inline_builder :
  test_main.greeting_is_acceptable hello_cpp.greeting = true.
Proof. reflexivity. Qed.

Example test_passes_on_greet :
  test_main.greeting_is_acceptable hello.greet = true.
Proof. reflexivity. Qed.

Example scenario_two_arguments :
  hello_cpp.greeting ["foo"; "bar"]
  = Ok (JObject [("Hello", JString "World");
                 ("args", JArray [JString "foo"; JString "bar"])]).
Proof. reflexivity. Qed.

Example scenario_no_argument :
  hello_cpp.greeting []
  = Ok (JObject [("Hello", JString "World"); ("args", JArray [])])
  /\ run (hello_cpp.main []) accepting 4096
     = mk_outcome ((greeting_head ++ "[]}") ++ String "010" "") (exited 0).
Proof. split; vm_compute; reflexivity. Qed.

(** The serializer keeps the bytes of a string in its buffer until the
    string ends: when it throws inside the second argument, the stream
    has received the first argument and the quote that opens the
    second, and nothing of the second. *)
Example serializer_buffer :
  dump (JArray [JString "ab"; JString (String "c" (String "255" "d"))]) false
  = ("[" ++ quoted "ab" ++ "," ++ String quote "", Throw (type_error 316)).
Proof. vm_compute. reflexivity. Qed.

(** The buffer of the stream: a process ended by an exception leaves on
    the device the full buffers it had written out, with a buffer of 8
    bytes the first 24 bytes of the 26 handed over, with a buffer of
    4096 bytes nothing. *)
Example stream_buffer :
  run (hello_cpp.main [String "255" ""]) accepting 8
  = mk_outcome (greeting_head ++ "") (terminated (type_error 316))
  /\ run (hello_cpp.main [String "255" ""]) accepting 4096
     = mk_outcome "" (terminated (type_error 316)).
Proof. split; vm_compute; reflexivity. Qed.

(** A pipe nobody reads: the process is ended by SIGPIPE when it writes
    its buffer out, on exit or when the buffer is full; an exception
    that comes first ends it through [std::terminate]. *)
Example pipe_nobody_reads :
  run (hello_cpp.main ["prog"]) broken_pipe 4096
  = mk_outcome "" killed_by_sigpipe
  /\ run (hello_cpp.main [String "255" ""]) broken_pipe 4096
     = mk_outcome "" (terminated (type_error 316))
  /\ run (hello_cpp.main [String "255" ""]) broken_pipe 8
     = mk_outcome "" killed_by_sigpipe.
Proof. repeat split; vm_compute; reflexivity. Qed.

Example decoder_accepts :
  map well_formed_utf8
    [ ""; "plain"; String "195" (String "169" "");
      String "226" (String "130" (String "172" ""));
      String "240" (String "159" (String "152" (String "128" ""))) ]
  = [true; true; true; true; true].
Proof. reflexivity. Qed.

Example decoder_rejects :
  map well_formed_utf8
    [ String "255" ""; String "128" ""; String "195" "";
      String "192" (String "175" "");
      String "237" (String "160" (String "128" ""));
      String "244" (String "144" (String "128" (String "128" ""))) ]
  = [false; false; false; false; false; false].
Proof. reflexivity. Qed.

Example reader_decodes_escapes :
  parse (quoted "\u00e9\ud83d\ude00\n\/")
  = Some (JString
            (String "195" (String "169"
               (String "240" (String "159" (String "152" (String "128"
                  (String "010" "/")))))))).
Proof. reflexivity. Qed.

Example reader_refuses :
  map parse ["[null,]"; "[null] x"; "{"; quoted "\ud83d"; quoted "\x"; "nul"]
  = [None; None; None; None; None; None].
Proof. reflexivity. Qed.

(** * Further properties *)

(** ** The decoder and the byte ranges of UTF-8 *)

(** The first byte of a character: its range decides the state the
    decoder goes to. *)
Lemma lead_byte_cases (b : ascii) :
  (between 0 127 b = true /\ utf8_next 0 b = 0%nat)
  \/ (between 0 127 b = false /\ between 194 223 b = true
      /\ utf8_next 0 b = 2%nat)
  \/ (between 0 127 b = false /\ between 194 223 b = false
      /\ between 224 239 b = true /\ between 224 224 b = true
      /\ utf8_next 0 b = 4%nat)
  \/ (between 0 127 b = false /\ between 194 223 b = false
      /\ between 224 239 b = true /\ between 224 224 b = false
      /\ between 237 237 b = true /\ utf8_next 0 b = 5%nat)
  \/ (between 0 127 b = false /\ between 194 223 b = false
      /\ between 224 239 b = true /\ between 224 224 b = false
      /\ between 237 237 b = false /\ utf8_next 0 b = 3%nat)
  \/ (between 0 127 b = false /\ between 194 223 b = false
      /\ between 224 239 b = false /\ between 240 244 b = true
      /\ between 240 240 b = true /\ utf8_next 0 b = 6%nat)
  \/ (between 0 127 b = false /\ between 194 223 b = false
      /\ between 224 239 b = false /\ between 240 244 b = true
      /\ between 240 240 b = false /\ between 244 244 b = true
      /\ utf8_next 0 b = 8%nat)
  \/ (between 0 127 b = false /\ between 194 223 b = false
      /\ between 224 239 b = false /\ between 240 244 b = true
      /\ between 240 240 b = false /\ between 244 244 b = false
      /\ utf8_next 0 b = 7%nat)
  \/ (between 0 127 b = false /\ between 194 223 b = false
      /\ between 224 239 b = false /\ between 240 244 b = false
      /\ utf8_next 0 b = 1%nat).
Proof.
  destruct b as [[] [] [] [] [] [] [] []];
    repeat match goal with
      | |- _ \/ _ => first [ left; solve [ repeat split; reflexivity ] | right ]
      end;
    repeat split; reflexivity.
Qed.

(** The later bytes of a character: from each state inside a character
    one range of bytes goes on, every other byte is rejected. *)
Lemma continuation_cases (b : ascii) :
  utf8_next 2 b = (if between 128 191 b then 0 else 1)%nat
  /\ utf8_next 3 b = (if between 128 191 b then 2 else 1)%nat
  /\ utf8_next 4 b = (if between 160 191 b then 2 else 1)%nat
  /\ utf8_next 5 b = (if between 128 159 b then 2 else 1)%nat
  /\ utf8_next 6 b = (if between 144 191 b then 3 else 1)%nat
  /\ utf8_next 7 b = (if between 128 191 b then 3 else 1)%nat
  /\ utf8_next 8 b = (if between 128 143 b then 3 else 1)%nat.
Proof.
  destruct b as [[] [] [] [] [] [] [] []]; repeat split; reflexivity.
Qed.

Lemma accept_reject (s : string) : (utf8_run 1 s =? 0)%nat = false.
Proof.
  pose proof (utf8_run_reject s) as H. unfold UTF8_REJECT in H.
  now rewrite H.
Qed.

Lemma accept_2 (b : ascii) (r : string) :
  (utf8_run 2 (String b r) =? 0)%nat
  = between 128 191 b && well_formed_utf8 r.
Proof.
  change (utf8_run 2 (String b r)) with (utf8_run (utf8_next 2 b) r).
  destruct (continuation_cases b) as (-> & _).
  destruct (between 128 191 b); [ reflexivity | apply accept_reject ].
Qed.

Lemma accept_3 (b : ascii) (r : string) :
  (utf8_run 3 (String b r) =? 0)%nat
  = between 128 191 b && (utf8_run 2 r =? 0)%nat.
Proof.
  change (utf8_run 3 (String b r)) with (utf8_run (utf8_next 3 b) r).
  destruct (continuation_cases b) as (_ & -> & _).
  destruct (between 128 191 b); [ reflexivity | apply accept_reject ].
Qed.

Lemma accept_4 (b : ascii) (r : string) :
  (utf8_run 4 (String b r) =? 0)%nat
  = between 160 191 b && (utf8_run 2 r =? 0)%nat.
Proof.
  change (utf8_run 4 (String b r)) with (utf8_run (utf8_next 4 b) r).
  destruct (continuation_cases b) as (_ & _ & -> & _).
  destruct (between 160 191 b); [ reflexivity | apply accept_reject ].
Qed.

Lemma accept_5 (b : ascii) (r : string) :
  (utf8_run 5 (String b r) =? 0)%nat
  = between 128 159 b && (utf8_run 2 r =? 0)%nat.
Proof.
  change (utf8_run 5 (String b r)) with (utf8_run (utf8_next 5 b) r).
  destruct (continuation_cases b) as (_ & _ & _ & -> & _).
  destruct (between 128 159 b); [ reflexivity | apply accept_reject ].
Qed.

Lemma accept_6 (b : ascii) (r : string) :
  (utf8_run 6 (String b r) =? 0)%nat
  = between 144 191 b && (utf8_run 3 r =? 0)%nat.
Proof.
  change (utf8_run 6 (String b r)) with (utf8_run (utf8_next 6 b) r).
  destruct (continuation_cases b) as (_ & _ & _ & _ & -> & _).
  destruct (between 144 191 b); [ reflexivity | apply accept_reject ].
Qed.

Lemma accept_7 (b : ascii) (r : string) :
  (utf8_run 7 (String b r) =? 0)%nat
  = between 128 191 b && (utf8_run 3 r =? 0)%nat.
Proof.
  change (utf8_run 7 (String b r)) with (utf8_run (utf8_next 7 b) r).
  destruct (continuation_cases b) as (_ & _ & _ & _ & _ & -> & _).
  destruct (between 128 191 b); [ reflexivity | apply accept_reject ].
Qed.

Lemma accept_8 (b : ascii) (r : string) :
  (utf8_run 8 (String b r) =? 0)%nat
  = between 128 143 b && (utf8_run 3 r =? 0)%nat.
Proof.
  change (utf8_run 8 (String b r)) with (utf8_run (utf8_next 8 b) r).
  destruct (continuation_cases b) as (_ & _ & _ & _ & _ & _ & ->).
  destruct (between 128 143 b); [ reflexivity | apply accept_reject ].
Qed.

(** The decoder accepts a string exactly when the string is well-formed
    by the byte ranges.  By induction on a bound of the length, since a
    character takes up to four bytes. *)
Lemma well_formed_by_ranges_bounded (n : nat) :
  forall s, (String.length s <= n)%nat ->
            well_formed_utf8 s = utf8_by_ranges s.
Proof.
  induction n as [ | n IH ]; intros [ | b0 r0 ] Hlen; try reflexivity.
  - simpl in Hlen. lia.
  - unfold well_formed_utf8.
    change (utf8_run UTF8_ACCEPT (String b0 r0))
      with (utf8_run (utf8_next 0 b0) r0).
    change UTF8_ACCEPT with 0%nat.
    cbn [utf8_by_ranges].
    destruct (lead_byte_cases b0)
      as [ (H1 & Hn)
         | [ (H1 & H2 & Hn)
         | [ (H1 & H2 & H3 & H4 & Hn)
         | [ (H1 & H2 & H3 & H4 & H5 & Hn)
         | [ (H1 & H2 & H3 & H4 & H5 & Hn)
         | [ (H1 & H2 & H3 & H4 & H5 & Hn)
         | [ (H1 & H2 & H3 & H4 & H5 & H6 & Hn)
         | [ (H1 & H2 & H3 & H4 & H5 & H6 & Hn)
         | (H1 & H2 & H3 & H4 & Hn) ]]]]]]]];
      rewrite Hn, ?H1, ?H2, ?H3, ?H4, ?H5, ?H6; cbv beta iota;
      try (destruct r0 as [ | b1 [ | b2 [ | b3 r3 ]]]);
      rewrite ?accept_reject, ?accept_8, ?accept_7, ?accept_6, ?accept_5,
        ?accept_4, ?accept_3, ?accept_2;
      cbn [utf8_run Nat.eqb andb];
      rewrite ?andb_false_r, ?andb_assoc;
      try reflexivity;
      try (rewrite <- (IH _) by (simpl in Hlen |- *; lia); reflexivity).
Qed.

Lemma well_formed_by_ranges (s : string) :
  well_formed_utf8 s = utf8_by_ranges s.
Proof. apply (well_formed_by_ranges_bounded (String.length s)). lia. Qed.

Lemma forallb_well_formed_by_ranges (l : list string) :
  forallb well_formed_utf8 l = forallb utf8_by_ranges l.
Proof.
  induction l as [ | a l IH ]; [ reflexivity | ].
  simpl. now rewrite well_formed_by_ranges, IH.
Qed.

(** X1: how the program of hello.cpp ends is decided by the byte ranges
    of the Unicode standard.  When every argument is well-formed UTF-8
    by these ranges, it exits with code 0, on a device that takes the
    text and on one that fails every write; a pipe nobody reads ends it
    by SIGPIPE.  On any other argument list it never exits with a code:
    error 316 escapes [main] and the process is terminated, unless
    SIGPIPE ended it before. *)
Theorem exit_status_by_byte_ranges (argv : list string) (d : device)
  (room : nat) :
  if forallb utf8_by_ranges argv
  then status (run (hello_cpp.main argv) d room)
       = match d with
         | broken_pipe => killed_by_sigpipe
         | _ => exited 0
         end
  else status (run (hello_cpp.main argv) d room) = terminated (type_error 316)
       \/ (d = broken_pipe
           /\ status (run (hello_cpp.main argv) d room) = killed_by_sigpipe).
Proof.
  rewrite <- forallb_well_formed_by_ranges.
  apply run_hello_status.
Qed.

(** ** No control character reaches the output *)

Lemma control_free_append (x y : string) :
  control_free (x ++ y) = control_free x && control_free y.
Proof.
  induction x as [ | c x IH ]; [ reflexivity | ].
  simpl. now rewrite IH, andb_assoc.
Qed.

Lemma control_free_wseq {A : Type} (w : writer unit) (k : writer A) :
  control_free (fst w) = true -> control_free (fst k) = true ->
  control_free (fst (w >> k)) = true.
Proof.
  destruct w as [o [[] | e]]; simpl; intros Hw Hk; [ | exact Hw ].
  now rewrite control_free_append, Hw, Hk.
Qed.

Lemma escaped_ascii_control_free (c : ascii) :
  utf8_next UTF8_ACCEPT c = UTF8_ACCEPT ->
  control_free (escaped (lead_codepoint c) c false) = true.
Proof.
  destruct c as [[] [] [] [] [] [] [] []]; intros H; vm_compute in H;
    try discriminate H; reflexivity.
Qed.

Lemma control_byte_class (c : ascii) :
  (32 <=? N_of_ascii c)%N = false -> byte_class c = 0%nat.
Proof.
  destruct c as [[] [] [] [] [] [] [] []]; intros H; vm_compute in H;
    try discriminate H; reflexivity.
Qed.

(** A byte the serializer copies while it is inside a character, or as
    the first byte of a longer character, is no control character. *)
Lemma copied_byte_not_control (st : nat) (cp : N) (c : ascii) :
  cp_inv st cp ->
  utf8_next st c <> UTF8_REJECT ->
  (st = UTF8_ACCEPT -> utf8_next st c <> UTF8_ACCEPT) ->
  (32 <=? N_of_ascii c)%N = true.
Proof.
  intros Hinv H1 H0.
  destruct (32 <=? N_of_ascii c)%N eqn:E; [ reflexivity | exfalso ].
  apply control_byte_class in E.
  rewrite utf8_next_class, E in *.
  destruct st as [|[|[|[|[|[|[|[|[|st]]]]]]]]];
    try contradiction Hinv;
    try (apply H1; reflexivity).
  now apply H0.
Qed.

Lemma escape_from_control_free (s : string) :
  forall (st : nat) (cp : N),
    cp_inv st cp ->
    control_free (fst (escape_from st cp s false)) = true.
Proof.
  induction s as [ | c s IH ]; intros st cp Hinv.
  - rewrite escape_from_nil. now destruct (st =? UTF8_ACCEPT)%nat.
  - rewrite escape_from_cons.
    pose proof (decode_state st cp c) as Hst'.
    pose proof (decode_inv st cp c Hinv) as Hstep.
    pose proof (copied_byte_not_control st cp c Hinv) as Hcopy.
    destruct (decode st cp c) as [st' cp'] eqn:D. simpl in Hst', Hstep.
    subst st'.
    destruct (Nat.eqb_spec (utf8_next st c) UTF8_ACCEPT) as [E0 | N0].
    + apply control_free_wseq; [ | rewrite E0; now apply IH ].
      unfold write_characters, fst.
      destruct (Nat.eq_dec st UTF8_ACCEPT) as [-> | Hst].
      * assert (cp' = lead_codepoint c) as ->
          by (rewrite <- (decode_snd_accept cp c), D; reflexivity).
        now apply escaped_ascii_control_free.
      * destruct Hstep as [_ Hbig]; [ rewrite E0; discriminate | ].
        rewrite escaped_large by (apply Hbig; assumption).
        simpl. rewrite andb_true_r.
        apply Hcopy; [ rewrite E0; discriminate | intros; contradiction ].
    + destruct (Nat.eqb_spec (utf8_next st c) UTF8_REJECT) as [E1 | N1];
        [ reflexivity | ].
      destruct (Hstep N1) as [Hinv' _].
      apply control_free_wseq; [ | now apply IH ].
      simpl. rewrite andb_true_r. apply Hcopy; [ assumption | ].
      intros _. exact N0.
Qed.

Lemma dump_escaped_control_free (s : string) :
  control_free (fst (dump_escaped s false)) = true.
Proof.
  destruct (dump_escaped_part s false) as (tail & Ht).
  pose proof (escape_from_control_free s UTF8_ACCEPT 0 I) as H.
  rewrite Ht, control_free_append in H.
  now apply andb_prop in H.
Qed.

Lemma dump_items_control_free (d : json -> writer unit) (vs : list json) :
  Forall (fun v => control_free (fst (d v)) = true) vs ->
  control_free (fst (dump_items d vs)) = true.
Proof.
  induction 1 as [ | v vs Hv Hvs IH ]; [ reflexivity | ].
  destruct vs as [ | v' vs ].
  - rewrite dump_items_one. now apply control_free_wseq.
  - rewrite dump_items_more. repeat apply control_free_wseq; auto.
Qed.

Lemma dump_members_control_free (d : json -> writer unit)
  (dk : string -> writer unit) (ms : list (string * json)) :
  (forall k, control_free (fst (dk k)) = true) ->
  Forall (fun kv => control_free (fst (d (snd kv))) = true) ms ->
  control_free (fst (dump_members d dk ms)) = true.
Proof.
  intros Hk.
  induction 1 as [ | [k v] ms Hv Hms IH ]; [ reflexivity | ].
  simpl in Hv.
  destruct ms as [ | kv' ms ].
  - simpl dump_members. repeat apply control_free_wseq; auto.
  - change (dump_members d dk ((k, v) :: kv' :: ms))
      with (write_character quote >> dk k
            >> write_characters (String quote ":")
            >> d v >> write_character ","
            >> dump_members d dk (kv' :: ms)).
    repeat apply control_free_wseq; auto.
Qed.

Lemma dump_control_free (j : json) : control_free (fst (dump j false)) = true.
Proof.
  induction j as [ | [] | s | items IH | members IH ] using json_ind;
    try reflexivity.
  - change (dump (JString s) false)
      with (write_character quote >> dump_escaped s false
            >> write_character quote).
    repeat apply control_free_wseq; try reflexivity.
    apply dump_escaped_control_free.
  - destruct items as [ | v vs ]; [ reflexivity | ].
    rewrite dump_array_cons.
    apply control_free_wseq; [ reflexivity | ].
    now apply dump_items_control_free.
  - destruct members as [ | kv ms ]; [ reflexivity | ].
    change (dump (JObject (kv :: ms)) false)
      with (write_character "{"
            >> dump_members (fun v => dump v false)
                 (fun k => dump_escaped k false) (kv :: ms)).
    apply control_free_wseq; [ reflexivity | ].
    apply dump_members_control_free; [ | exact IH ].
    intros k. apply dump_escaped_control_free.
Qed.

(** X2: whatever [hello::greet] returns or throws, whatever the arguments
    and whatever standard output does, the output of main.cpp holds no
    control character other than one line feed at its very end, and the
    line feed is there only when the device takes the text and the
    process exits with code 0.  The same holds of hello.cpp. *)
Theorem output_has_no_control_character
  (greet : list string -> result json) (argv : list string) (d : device)
  (room : nat) :
  (exists text,
     control_free text = true
     /\ (stdout (run (main_cpp.main greet argv) d room) = text
         \/ (stdout (run (main_cpp.main greet argv) d room)
             = text ++ String "010" ""
             /\ d = accepting
             /\ status (run (main_cpp.main greet argv) d room) = exited 0)))
  /\ (exists text,
        control_free text = true
        /\ (stdout (run (hello_cpp.main argv) d room) = text
            \/ stdout (run (hello_cpp.main argv) d room)
               = text ++ String "010" "")).
Proof.
  assert (H : forall g,
             exists text,
               control_free text = true
               /\ (stdout (run (main_cpp.main g argv) d room) = text
                   \/ (stdout (run (main_cpp.main g argv) d room)
                       = text ++ String "010" ""
                       /\ d = accepting
                       /\ status (run (main_cpp.main g argv) d room)
                          = exited 0))).
  { intros g. destruct d.
    - pose proof (run_accepting g argv room) as Ha.
      destruct (g argv) as [j | e];
        [ | rewrite Ha; exists ""; split; [ reflexivity | now left ] ].
      pose proof (dump_control_free j) as Hfree.
      destruct (snd (dump j false)) as [[] | e].
      + rewrite Ha. exists (fst (dump j false)).
        split; [ exact Hfree | right ]. now repeat split.
      + destruct Ha as [_ (tail & Ht)].
        exists (stdout (run (main_cpp.main g argv) accepting room)).
        split; [ | now left ].
        rewrite Ht, control_free_append in Hfree.
        now apply andb_prop in Hfree.
    - rewrite run_refusing. exists "". split; [ reflexivity | now left ].
    - destruct (run_broken_pipe g argv room) as [Ho _]. rewrite Ho.
      exists "". split; [ reflexivity | now left ]. }
  split; [ apply H | ].
  rewrite hello_cpp_main_unfold.
  destruct (H hello_cpp.greeting) as (text & Hfree & [Ht | (Ht & _)]);
    exists text; split; auto.
Qed.

(** ** The output determines the arguments *)




(** ** Arguments that need no escape pass verbatim *)








(** ** The test case and the test runner *)

(** X6: the test case passes exactly when [hello::greet] returns, for the
    arguments "foo" and "bar", an object whose member "Hello" is the
    string "World" and whose member "args" is an array with "foo" as
    element 0 and "bar" as element 1.  It asks nothing of the length of
    the array nor of other members. *)
Theorem test_case_accepts (greet : list string -> result json) :
  test_main.greeting_is_acceptable greet = true
  <-> exists g items,
        greet ["foo"; "bar"] = Ok g
        /\ at_key g "Hello" = Ok (JString "World")
        /\ at_key g "args" = Ok (JArray items)
        /\ nth_error items 0 = Some (JString "foo")
        /\ nth_error items 1 = Some (JString "bar").
Proof.
  unfold test_main.greeting_is_acceptable, test_main.requirements.
  split.
  - destruct (greet ["foo"; "bar"]) as [g | e]; [ | discriminate ].
    cbn [forallb test_main.holds]. intros H.
    repeat (apply andb_prop in H as [? H]).
    destruct (at_key g "Hello") as [v | e] eqn:EH; [ | discriminate ].
    destruct (at_key g "args") as [arr | e] eqn:EA; [ | discriminate ].
    cbn [bind test_main.holds] in *.
    destruct arr as [ | b | s | items | ms ]; try discriminate.
    cbn [at_index] in *.
    destruct (nth_error items 0) as [x0 | ] eqn:E0; [ | discriminate ].
    destruct (nth_error items 1) as [x1 | ] eqn:E1; [ | discriminate ].
    cbn [bind test_main.holds] in *.
    repeat match goal with
      | E : json_eqb _ _ = true |- _ => apply json_eqb_eq in E; subst
      end.
    now exists g, items.
  - intros (g & items & -> & HH & HA & H0 & H1).
    assert (Hc : forall k v, at_key g k = Ok v -> contains g k = true).
    { intros k v. destruct g as [ | b | s | l | m ]; try discriminate.
      unfold at_key, contains. now destruct (map_find k m). }
    cbn [forallb test_main.holds].
    rewrite (Hc _ _ HH), (Hc _ _ HA), HH, HA. cbn [bind at_index].
    rewrite H0, H1. reflexivity.
Qed.

(** X7: the exit code of the test program is the result of the test
    framework's runner, 0 included: nothing else is returned. *)
Theorem test_runner_exit_code (session_run : list string -> Z)
  (argv : list string) :
  test_main.main session_run argv = session_run argv.
Proof.
  unfold test_main.main. cbv zeta.
  destruct (Z.eqb_spec (session_run argv) 0) as [E | _]; simpl;
    [ now rewrite E | reflexivity ].
Qed.

(** ** The constructor on a list of pairs *)

Lemma ltb_lt (a b : string) : String.ltb a b = true <-> String.compare a b = Lt.
Proof.
  unfold String.ltb. destruct (String.compare a b); split; congruence.
Qed.













(** ** When the serializer throws, for any value *)

Lemma all_strings_ext (p q : string -> bool) (j : json) :
  (forall s, p s = q s) -> all_strings p j = all_strings q j.
Proof.
  intros Hpq.
  induction j as [ | b | s | items IH | members IH ] using json_ind;
    try reflexivity.
  - apply Hpq.
  - simpl. induction IH as [ | v vs Hv _ IHvs ]; [ reflexivity | ].
    simpl. now rewrite Hv, IHvs.
  - simpl. induction IH as [ | [k v] ms Hv _ IHms ]; [ reflexivity | ].
    simpl in *. now rewrite Hpq, Hv, IHms.
Qed.


Lemma dump_items_result (d : json -> writer unit) (vs : list json) :
  vs <> [] ->
  Forall (fun v => snd (d v)
                   = if all_strings well_formed_utf8 v then Ok tt
                     else Throw (type_error 316)) vs ->
  snd (dump_items d vs)
  = if forallb (all_strings well_formed_utf8) vs then Ok tt
    else Throw (type_error 316).
Proof.
  intros Hne H. induction H as [ | v vs Hv Hvs IH ]; [ contradiction | ].
  destruct vs as [ | v' vs ].
  - rewrite dump_items_one, snd_wseq, Hv. simpl.
    now destruct (all_strings well_formed_utf8 v).
  - rewrite dump_items_more, !snd_wseq, Hv.
    change (forallb (all_strings well_formed_utf8) (v :: v' :: vs))
      with (all_strings well_formed_utf8 v
            && forallb (all_strings well_formed_utf8) (v' :: vs)).
    destruct (all_strings well_formed_utf8 v); [ | reflexivity ].
    simpl snd at 1. apply IH. discriminate.
Qed.

Lemma dump_members_result (d : json -> writer unit)
  (ms : list (string * json)) :
  ms <> [] ->
  Forall (fun kv => snd (d (snd kv))
                    = if all_strings well_formed_utf8 (snd kv) then Ok tt
                      else Throw (type_error 316)) ms ->
  snd (dump_members d (fun k => dump_escaped k false) ms)
  = if forallb (fun kv => well_formed_utf8 (fst kv)
                          && all_strings well_formed_utf8 (snd kv)) ms
    then Ok tt else Throw (type_error 316).
Proof.
  intros Hne H. induction H as [ | [k v] ms Hv Hms IH ]; [ contradiction | ].
  simpl in Hv.
  destruct ms as [ | kv' ms ].
  - simpl dump_members. rewrite !snd_wseq, dump_escaped_result, Hv.
    simpl. destruct (well_formed_utf8 k); [ | reflexivity ].
    now destruct (all_strings well_formed_utf8 v).
  - change (dump_members d (fun k => dump_escaped k false)
              ((k, v) :: kv' :: ms))
      with (write_character quote >> dump_escaped k false
            >> write_characters (String quote ":")
            >> d v >> write_character ","
            >> dump_members d (fun k => dump_escaped k false) (kv' :: ms)).
    rewrite !snd_wseq, dump_escaped_result, Hv.
    change (forallb
              (fun kv => well_formed_utf8 (fst kv)
                         && all_strings well_formed_utf8 (snd kv))
              ((k, v) :: kv' :: ms))
      with (well_formed_utf8 k && all_strings well_formed_utf8 v
            && forallb
                 (fun kv => well_formed_utf8 (fst kv)
                            && all_strings well_formed_utf8 (snd kv))
                 (kv' :: ms)).
    simpl snd at 1 2.
    destruct (well_formed_utf8 k); [ | reflexivity ].
    simpl snd at 1.
    destruct (all_strings well_formed_utf8 v); [ | reflexivity ].
    simpl snd at 1. apply IH. discriminate.
Qed.

(** The serializer writes a value to its end exactly when every string
    in it, keys included, is accepted by the decoder; it throws error
    316 and nothing else otherwise. *)
Lemma dump_result (j : json) :
  snd (dump j false)
  = if all_strings well_formed_utf8 j then Ok tt else Throw (type_error 316).
Proof.
  induction j as [ | [] | s | items IH | members IH ] using json_ind;
    try reflexivity.
  - apply dump_string_result.
  - destruct items as [ | v vs ]; [ reflexivity | ].
    rewrite dump_array_cons, snd_wseq. simpl snd at 1.
    apply dump_items_result; [ discriminate | exact IH ].
  - destruct members as [ | kv ms ]; [ reflexivity | ].
    change (dump (JObject (kv :: ms)) false)
      with (write_character "{"
            >> dump_members (fun v => dump v false)
                 (fun k => dump_escaped k false) (kv :: ms)).
    rewrite snd_wseq. simpl snd at 1.
    apply (dump_members_result (fun v => dump v false));
      [ discriminate | exact IH ].
Qed.

(** X13: how the program of main.cpp ends, for any [hello::greet]
    that returns a value of the five kinds or throws.  When
    [hello::greet] throws, its exception terminates the process.  When
    every string of the value it returned, keys included, is
    well-formed UTF-8 by the byte ranges, the process exits with code 0,
    unless standard output is a pipe nobody reads, which ends it by
    SIGPIPE.  Otherwise error 316 terminates it, unless SIGPIPE ended it
    before: the serializer raises no other error. *)
Theorem main_exit_status (greet : list string -> result json)
  (argv : list string) (d : device) (room : nat) :
  match greet argv with
  | Throw e => status (run (main_cpp.main greet argv) d room) = terminated e
  | Ok j =>
      if all_strings utf8_by_ranges j
      then status (run (main_cpp.main greet argv) d room)
           = match d with
             | broken_pipe => killed_by_sigpipe
             | _ => exited 0
             end
      else status (run (main_cpp.main greet argv) d room)
           = terminated (type_error 316)
           \/ (d = broken_pipe
               /\ status (run (main_cpp.main greet argv) d room)
                  = killed_by_sigpipe)
  end.
Proof.
  pose proof (run_status greet argv d room) as H.
  destruct (greet argv) as [j | e]; [ | exact H ].
  rewrite dump_result in H.
  rewrite (all_strings_ext well_formed_utf8 utf8_by_ranges j
             well_formed_by_ranges) in H.
  now destruct (all_strings utf8_by_ranges j).
Qed.
